(** * Answer-automation: the upload handler of [main.py]

    A shallow embedding of [extract_urls_from_response],
    [save_message_to_file] and the request handler [process_file], with the
    properties of the response-processing pipeline proved over it.

    Conventions of the embedding.
    - A Python [str] is a [string]; a character is a code point below 256,
      and the character classes ([isspace], [isalnum], [lower]) are the
      Unicode ones restricted to that range.
    - The pandas, requests and datetime libraries are not re-implemented:
      the spreadsheet parsers, the remote service, the clock and
      [strftime] are fields of an environment record [Env].
    - The file system is a finite map from paths to contents, and writing
      a file always succeeds; log records are not part of the state.  The
      statements that promise the output spreadsheet name what the writers
      of the real file system need ([writes_succeed]) among their
      hypotheses.
    - A column of a table has the dtype that the parsers infer from its
      cells, and an assignment of a text to a cell of a numeric or boolean
      column raises, as it does in pandas from version 3 on.
    - [list(set(urls))] has the order of [elements]; the statements about
      the URLs of a reply hold for every order.
    - Python exceptions are values of [exn]; a computation returns [Ok] or
      [Raise], and the state reached so far is kept in both cases. *)

From Stdlib Require Import Ascii String.
From stdpp Require Import base option list gmap strings.

#[local] Set Warnings "-clear-no-such-hyp".

(** ** Text primitives *)

Definition code (c : ascii) : nat := nat_of_ascii c.

Definition between (lo hi n : nat) : bool := (lo <=? n) && (n <=? hi).

(** [str.isspace] on one character. *)
Definition isspace (c : ascii) : bool :=
  let n := code c in
  between 9 13 n || between 28 32 n || (n =? 133) || (n =? 160).

(** [str.isalnum] on one character. *)
Definition isalnum (c : ascii) : bool :=
  let n := code c in
  between 48 57 n || between 65 90 n || between 97 122 n
  || (n =? 170) || (n =? 178) || (n =? 179) || (n =? 181)
  || between 185 186 n || between 188 190 n
  || between 192 214 n || between 216 246 n || between 248 255 n.

(** [str.lower] on one character. *)
Definition lower_char (c : ascii) : ascii :=
  let n := code c in
  if between 65 90 n || (between 192 222 n && negb (n =? 215))
  then ascii_of_nat (n + 32) else c.

Fixpoint lower (s : string) : string :=
  match s with
  | EmptyString => EmptyString
  | String c s' => String (lower_char c) (lower s')
  end.

Fixpoint lstrip (s : string) : string :=
  match s with
  | EmptyString => EmptyString
  | String c s' => if isspace c then lstrip s' else s
  end.

Fixpoint rstrip (s : string) : string :=
  match s with
  | EmptyString => EmptyString
  | String c s' =>
      match rstrip s' with
      | EmptyString => if isspace c then EmptyString else String c EmptyString
      | r => String c r
      end
  end.

(** [s.strip()] *)
Definition strip (s : string) : string := rstrip (lstrip s).

(** Truth value of a [str]: non-empty. *)
Definition str_truthy (s : string) : bool :=
  match s with EmptyString => false | String _ _ => true end.

(** [s[:n]] *)
Fixpoint take_str (n : nat) (s : string) : string :=
  match n, s with
  | S n', String c s' => String c (take_str n' s')
  | _, _ => EmptyString
  end.

(** [sep.join(l)] *)
Fixpoint join (sep : string) (l : list string) : string :=
  match l with
  | [] => EmptyString
  | [x] => x
  | x :: rest => x +:+ sep +:+ join sep rest
  end.

(** The rest of [s] after the prefix [p], when [s] starts with [p]. *)
Fixpoint strip_prefix (p s : string) : option string :=
  match p, s with
  | EmptyString, _ => Some s
  | String a p', String b s' =>
      if Ascii.eqb a b then strip_prefix p' s' else None
  | String _ _, EmptyString => None
  end.

(** [s.partition(sep)] when [sep] occurs in [s]: the text before the
    leftmost occurrence and the text after it. *)
Fixpoint str_partition (sep s : string) : option (string * string) :=
  match strip_prefix sep s with
  | Some rest => Some (EmptyString, rest)
  | None =>
      match s with
      | EmptyString => None
      | String c s' =>
          match str_partition sep s' with
          | Some (a, b) => Some (String c a, b)
          | None => None
          end
      end
  end.

Fixpoint split_fuel (fuel : nat) (sep s : string) : list string :=
  match fuel with
  | 0 => [s]
  | S n =>
      match str_partition sep s with
      | None => [s]
      | Some (a, b) => a :: split_fuel n sep b
      end
  end.

(** [s.split(sep)] for a non-empty [sep]: cut at the leftmost occurrence,
    go on after it.  Every cut consumes a character, so [length s] rounds
    are enough ([str_split_unfold]). *)
Definition str_split (sep s : string) : list string :=
  split_fuel (String.length s) sep s.

(** ** The anchor pattern of [url_pattern]

    The literal text [<a href=], a quote character (double or single), a
    captured non-empty greedy run of characters that are not quotes, and a
    quote character. *)

Definition is_quote (c : ascii) : bool :=
  Ascii.eqb c "034"%char || Ascii.eqb c "'"%char.

(** The longest run of non-quote characters at the start of [s], and what
    follows it. *)
Fixpoint span_unquoted (s : string) : string * string :=
  match s with
  | EmptyString => (EmptyString, EmptyString)
  | String c s' =>
      if is_quote c then (EmptyString, s)
      else let (u, r) := span_unquoted s' in (String c u, r)
  end.

(** A match of the pattern anchored at the start of [s]: the captured
    group and the text after the match.  The greedy group takes the whole
    run of non-quote characters; giving characters back never helps,
    because the closing class would then face a non-quote character. *)
Definition match_anchor (s : string) : option (string * string) :=
  match strip_prefix "<a href=" s with
  | Some (String q r) =>
      if is_quote q then
        match span_unquoted r with
        | (String c u, String _ rest) => Some (String c u, rest)
        | _ => None
        end
      else None
  | _ => None
  end.

(** Leftmost match at or after the start of [s]. *)
Fixpoint search_anchor (s : string) : option (string * string) :=
  match match_anchor s with
  | Some r => Some r
  | None =>
      match s with
      | EmptyString => None
      | String _ s' => search_anchor s'
      end
  end.

Fixpoint findall_fuel (fuel : nat) (s : string) : list string :=
  match fuel with
  | 0 => []
  | S n =>
      match search_anchor s with
      | None => []
      | Some (u, rest) => u :: findall_fuel n rest
      end
  end.

(** [re.findall(url_pattern, s)]: the captured groups of the successive
    non-overlapping matches, left to right. *)
Definition findall_urls (s : string) : list string :=
  findall_fuel (String.length s) s.

(** ** [extract_urls_from_response] *)

Definition marker : string := "Relevant URLs:".

(** [list(set(urls))]: Python fixes no iteration order for a set of
    strings; the order of [elements] stands for it. *)
Definition list_of_set (urls : list string) : list string :=
  elements (list_to_set urls : gset string).

Definition extract_urls_from_response (response_text : string) : list string :=
  let split_text := str_split marker response_text in
  if decide (length split_text < 2) then []
  else
    let urls_section := nth 1 split_text EmptyString in
    let urls := findall_urls urls_section in
    list_of_set urls.

(** [s] reads [a], then [sep], then [b], and [sep] occurs nowhere further
    to the left. *)
Definition leftmost (sep s a b : string) : Prop :=
  s = a +:+ sep +:+ b ∧
  ∀ a' b', s = a' +:+ sep +:+ b' → String.length a ≤ String.length a'.

(** ** [os.path.splitext] (POSIX) *)

(** [s.rfind(c)]: the index of the last occurrence of [c], or [-1]. *)
Fixpoint rfind_from (i : Z) (c : ascii) (s : string) : Z :=
  match s with
  | EmptyString => (-1)%Z
  | String a s' =>
      let j := rfind_from (i + 1)%Z c s' in
      if (0 <=? j)%Z then j else if Ascii.eqb a c then i else (-1)%Z
  end.

Definition rfind (c : ascii) (s : string) : Z := rfind_from 0%Z c s.

Fixpoint drop_str (n : nat) (s : string) : string :=
  match n, s with
  | S n', String _ s' => drop_str n' s'
  | _, _ => s
  end.

(** The extension of [p]: from the last dot on, when that dot comes after
    the last slash and some character between them is not a dot. *)
Definition splitext (p : string) : string * string :=
  let sepIndex := rfind "/"%char p in
  let dotIndex := rfind "."%char p in
  if (sepIndex <? dotIndex)%Z then
    let filenameIndex := Z.to_nat (sepIndex + 1) in
    let stem := take_str (Z.to_nat dotIndex - filenameIndex)
                         (drop_str filenameIndex p) in
    if existsb (fun c => negb (Ascii.eqb c "."%char)) (list_ascii_of_string stem)
    then (take_str (Z.to_nat dotIndex) p, drop_str (Z.to_nat dotIndex) p)
    else (p, EmptyString)
  else (p, EmptyString).

(** ** Data model *)

(** A spreadsheet cell as the row loop sees it. [Missing] stands for every
    value on which [pd.isna] is true. *)
Inductive cell :=
  | Missing
  | Text (s : string)
  | Number (z : Z)
  | Boolean (b : bool).

(** [type(v).__name__] for the values that are not [str]. *)
Definition cell_type_name (v : cell) : string :=
  match v with
  | Missing => "float"
  | Text _ => "str"
  | Number _ => "int"
  | Boolean _ => "bool"
  end.

(** A table: the ordered column labels and, per row of the default integer
    index, the cells by column label. *)
Record DataFrame := {
  columns : list string;
  rows : list (gmap string cell)
}.

(** [df[c] = v] with a scalar [v]. *)
Definition add_column (c : string) (v : cell) (df : DataFrame) : DataFrame :=
  {| columns := if decide (c ∈ columns df) then columns df
                else columns df ++ [c];
     rows := (λ r, <[c := v]> r) <$> rows df |}.

(** [if c not in df.columns: df[c] = ''] (the empty string) *)
Definition ensure_column (df : DataFrame) (c : string) : DataFrame :=
  if decide (c ∈ columns df) then df else add_column c (Text EmptyString) df.

(** [df.at[index, c] = v] for an [index] of the table. *)
Definition set_at (index : nat) (c : string) (v : cell) (df : DataFrame)
  : DataFrame :=
  {| columns := columns df;
     rows := alter (λ r, <[c := v]> r) index (rows df) |}.

(** The dtype of a column, as the parsers infer it from the cells: text
    makes it [object], and so does a mix of booleans with numbers or
    missing values; booleans alone give [bool], integers alone [int64],
    numbers with missing values (or missing values alone) [float64].  A
    column without cells is [object]. *)
Inductive dtype := DObject | DBool | DInt64 | DFloat64.

Definition dtype_name (d : dtype) : string :=
  match d with
  | DObject => "object"
  | DBool => "bool"
  | DInt64 => "int64"
  | DFloat64 => "float64"
  end.

Definition is_text (v : cell) : bool :=
  match v with Text _ => true | _ => false end.

Definition is_boolean (v : cell) : bool :=
  match v with Boolean _ => true | _ => false end.

Definition is_number (v : cell) : bool :=
  match v with Number _ => true | _ => false end.

Definition infer_dtype (cells : list cell) : dtype :=
  match cells with
  | [] => DObject
  | _ =>
      if existsb is_text cells then DObject
      else if forallb is_boolean cells then DBool
      else if existsb is_boolean cells then DObject
      else if forallb is_number cells then DInt64
      else DFloat64
  end.

(** The cells of the column [c], from the first row to the last. *)
Definition column (df : DataFrame) (c : string) : list cell :=
  (λ r, default Missing (r !! c)) <$> rows df.

(** The column [c] can hold a text: its dtype is [object]. *)
Definition takes_text (df : DataFrame) (c : string) : bool :=
  match infer_dtype (column df c) with
  | DObject => true
  | _ => false
  end.

(** [df.at[index, c] = v] is refused: [v] is a text and the dtype of the
    column is not [object]. *)
Definition refuses (df : DataFrame) (c : string) (v : cell) : bool :=
  is_text v && negb (takes_text df c).

Definition evaluation_metrics : list string :=
  [ "Relevance"; "Accuracy"; "Clarity"; "Tone and Politeness";
    "Completeness"; "Engagement"; "User Satisfaction"; "Bias and Ethical";
    "Cross-Session Continuity"; "Information Provenance" ].

(** A decoded JSON document. *)
#[warning="-register-all"] Inductive json :=
  | JNull
  | JBool (b : bool)
  | JNumber (z : Z)
  | JString (s : string)
  | JArray (items : list json)
  | JObject (members : list (string * json)).

Definition json_type_name (j : json) : string :=
  match j with
  | JNull => "NoneType"
  | JBool _ => "bool"
  | JNumber _ => "int"
  | JString _ => "str"
  | JArray _ => "list"
  | JObject _ => "dict"
  end.

Inductive exn :=
  | RequestException (detail : string)
  | AttributeError (type_name attr : string)
  | OtherException (detail : string).

(** [str(e)] *)
Definition str_exn (e : exn) : string :=
  match e with
  | RequestException d => d
  | AttributeError t a =>
      "'" +:+ t +:+ "' object has no attribute '" +:+ a +:+ "'"
  | OtherException d => d
  end.

(** [except requests.exceptions.RequestException] *)
Definition is_request_exception (e : exn) : bool :=
  match e with RequestException _ => true | _ => false end.

Inductive result (A : Type) :=
  | Ok (a : A)
  | Raise (e : exn).
Arguments Ok {A} a.
Arguments Raise {A} e.

(** The JSON body of the request: the keys [question], [product] and
    [version]. *)
Record payload := {
  payload_question : string;
  payload_product : string;
  payload_version : string
}.

(** What [requests.post] hands back: the status code, and what
    [response.json()] does. *)
Record response := {
  status_code : Z;
  json_result : result json
}.

Inductive sheet_format := Excel | Csv.

Inductive file_content :=
  | Uploaded (data : list Byte.byte)
  | JsonFile (doc : json)
  | Spreadsheet (fmt : sheet_format) (df : DataFrame).

(** The state outside the handler: the files, the paths opened for writing
    so far (oldest first), the remote calls made so far (with the index of
    the row they were made for) and the number of times the clock was
    read. *)
Record world := {
  fs : gmap string file_content;
  opened : list string;
  calls : list (nat * payload);
  clock : nat
}.

(** The libraries and services the handler talks to. *)
Record Env := {
  read_excel : file_content → result DataFrame;
  read_csv : file_content → result DataFrame;
  (** the outcome of the call made while processing the row [index] *)
  requests_post : nat → payload → result response;
  (** [datetime.now().strftime(fmt)] at the [n]-th reading of the clock *)
  now_strftime : nat → string → string
}.

(** What the handler returns: a file download or the dict [{'error': msg}]. *)
Inductive http_result :=
  | FileResponse (path filename : string)
  | ErrorJson (msg : string).

(** ** State and exceptions *)

Definition M (S A : Type) : Type := S → result A * S.

#[global] Instance M_ret {S} : MRet (M S) := λ A a s, (Ok a, s).

#[global] Instance M_bind {S} : MBind (M S) := λ A B k m s,
  match m s with
  | (Ok a, s') => k a s'
  | (Raise e, s') => (Raise e, s')
  end.

Definition raise {S A} (e : exn) : M S A := λ s, (Raise e, s).

Definition lift_result {S A} (r : result A) : M S A := λ s, (r, s).

(** [try: body / except <catches> as e: handler e] *)
Definition try_except {S A} (body : M S A) (catches : exn → bool)
    (handler : exn → M S A) : M S A := λ s,
  match body s with
  | (Ok a, s') => (Ok a, s')
  | (Raise e, s') => if catches e then handler e s' else (Raise e, s')
  end.

Definition record_write (path : string) (content : file_content) (w : world)
  : world :=
  {| fs := <[path := content]> (fs w); opened := opened w ++ [path];
     calls := calls w; clock := clock w |}.

Definition record_call (index : nat) (p : payload) (w : world) : world :=
  {| fs := fs w; opened := opened w; calls := calls w ++ [(index, p)];
     clock := clock w |}.

Definition tick (w : world) : world :=
  {| fs := fs w; opened := opened w; calls := calls w; clock := S (clock w) |}.

(** [open(path, 'w')] and a write of the whole content. *)
Definition write_file (path : string) (content : file_content) : M world unit :=
  λ w, (Ok tt, record_write path content w).

Definition read_file (path : string) : M world file_content := λ w,
  match fs w !! path with
  | Some content => (Ok content, w)
  | None => (Raise (OtherException ("No such file or directory: " +:+ path)), w)
  end.

(** [d.get(key, default)] on a decoded document. *)
Fixpoint assoc (key : string) (members : list (string * json)) : option json :=
  match members with
  | [] => None
  | (k, v) :: rest => if decide (k = key) then Some v else assoc key rest
  end.

Definition json_get (j : json) (key : string) (dflt : json) : result json :=
  match j with
  | JObject members => Ok (default dflt (assoc key members))
  | _ => Raise (AttributeError (json_type_name j) "get")
  end.

(** [extract_urls_from_response] called on whatever [message] holds: only
    a [str] has a [split] method. *)
Definition extract_urls (response_text : json) : result (list string) :=
  match response_text with
  | JString s => Ok (extract_urls_from_response s)
  | _ => Raise (AttributeError (json_type_name response_text) "split")
  end.

(** [row.get('Question', '')] *)
Definition question_of (row : gmap string cell) : cell :=
  default (Text EmptyString) (row !! "Question").

(** [os.path.splitext(filename)[1].lower()] *)
Definition extension_of (filename : string) : string :=
  lower (splitext filename).2.

(** ** The handler *)

Section Handler.

Variable E : Env.

(** [datetime.now().strftime(fmt)] *)
Definition now (fmt : string) : M world string := λ w,
  (Ok (now_strftime E (clock w) fmt), tick w).

(** [requests.post(api_url, json=payload, timeout=60)] for the row [index] *)
Definition post (index : nat) (p : payload) : M world response := λ w,
  (requests_post E index p, record_call index p w).

Fixpoint map_str (f : ascii → ascii) (s : string) : string :=
  match s with
  | EmptyString => EmptyString
  | String c s' => String (f c) (map_str f s')
  end.

Definition save_message_to_file (response_json : json)
    (question product version : string) : M world string :=
  timestamp ← now "%Y%m%d_%H%M%S";
  let sanitized_question :=
    take_str 30 (map_str (λ c, if isalnum c then c else "_"%char) question) in
  let filename := sanitized_question +:+ "_" +:+ timestamp +:+ ".json" in
  let file_path := "messages/" +:+ filename in
  message_text ← lift_result (json_get response_json "message" (JString EmptyString));
  stamp ← now "%Y-%m-%d %H:%M:%S";
  let response_with_metadata :=
    JObject [ ("question", JString question);
              ("product", JString product);
              ("version", JString version);
              ("timestamp", JString stamp);
              ("response_raw", response_json);
              ("response_message", message_text) ] in
  _ ← write_file file_path (JsonFile response_with_metadata);
  mret file_path.

(** The row loop runs on the table [df] and the world. *)
Definition lift {A} (m : M world A) : M (DataFrame * world) A := λ st,
  let (r, w') := m st.2 in (r, (st.1, w')).

(** The [TypeError] of an assignment that the dtype of the column does
    not allow. *)
Definition invalid_value (df : DataFrame) (c : string) (v : cell) : exn :=
  OtherException
    ("Invalid value '" +:+ match v with Text s => s | _ => EmptyString end +:+
     "' for dtype '" +:+ dtype_name (infer_dtype (column df c)) +:+ "'").

(** [df.at[index, c] = v].  Since pandas 3 the assignment of a text to a
    column of a numeric or boolean dtype raises [TypeError] (earlier
    versions warned and changed the dtype of the column). *)
Definition df_at_set (index : nat) (c : string) (v : cell)
  : M (DataFrame * world) unit := λ st,
  if refuses st.1 c v then (Raise (invalid_value st.1 c v), st)
  else (Ok tt, (set_at index c v st.1, st.2)).

Variables product version : string.

(** [{'question': question, 'product': product, 'version': version}] *)
Definition payload_of (q : string) : payload :=
  {| payload_question := q; payload_product := product;
     payload_version := version |}.

(** The body of the [if] of the row loop, for the question [q].  When the
    first [df.at] is reached [response_text] is a [str]: on any other value
    [extract_urls] has raised. *)
Definition ask (index : nat) (q : string) : M (DataFrame * world) unit :=
  let payload := payload_of q in
  try_except
    (response ← lift (post index payload);
     if decide (status_code response = 200%Z) then
       response_json ← lift_result (json_result response);
       response_text ← lift_result (json_get response_json "message" (JString EmptyString));
       extracted_urls ← lift_result (extract_urls response_text);
       _ ← df_at_set index "Extracted Text"
             (match response_text with JString s => Text s | _ => Missing end);
       _ ← df_at_set index "Extracted URL"
             (Text (match extracted_urls with
                    | [] => "No URL found"
                    | _ => join (String "010"%char EmptyString) extracted_urls
                    end));
       _ ← lift (save_message_to_file response_json q product version);
       mret tt
     else
       _ ← df_at_set index "Extracted Text" (Text "Error: Failed to get response from API");
       df_at_set index "Extracted URL" (Text "No URL found"))
    is_request_exception
    (λ _,
       _ ← df_at_set index "Extracted Text" (Text "Error: API request failed");
       df_at_set index "Extracted URL" (Text "No URL found")).

(** One round of [for index, row in df.iterrows()]. *)
Definition process_row (index : nat) (row : gmap string cell)
  : M (DataFrame * world) unit :=
  let question := question_of row in
  match question with
  | Missing => mret tt
  | Text q => if str_truthy (strip q) then ask index q else mret tt
  | _ => raise (AttributeError (cell_type_name question) "strip")
  end.

(** The rounds for the rows [rows], the first of which has index [index]. *)
Fixpoint iterrows_loop (index : nat) (rows : list (gmap string cell))
  : M (DataFrame * world) unit :=
  match rows with
  | [] => mret tt
  | row :: rest => _ ← process_row index row; iterrows_loop (S index) rest
  end.

(** The whole loop on [df]; [iterrows] walks the rows as they are when the
    loop starts. *)
Definition process_rows (df : DataFrame) : M world DataFrame := λ w,
  match iterrows_loop 0 (rows df) (df, w) with
  | (Ok _, (df', w')) => (Ok df', w')
  | (Raise e, (_, w')) => (Raise e, w')
  end.

(** The columns the handler makes sure of before the loop. *)
Definition prepare (df : DataFrame) : DataFrame :=
  let df := foldl ensure_column df evaluation_metrics in
  let df := ensure_column df "Extracted Text" in
  ensure_column df "Extracted URL".

(** *** Vocabulary of the statements about rows *)

Definition extracted_text : string := "Extracted Text".
Definition extracted_url : string := "Extracted URL".

(** The [Question] cell is missing or blank. *)
Definition is_blank (v : cell) : bool :=
  match v with
  | Missing => true
  | Text q => negb (str_truthy (strip q))
  | _ => false
  end.

(** The [Question] cell holds a value that is neither missing nor a text. *)
Definition not_text (v : cell) : bool :=
  match v with
  | Number _ | Boolean _ => true
  | _ => false
  end.

(** The question sent to the service for a [Question] cell, if any. *)
Definition asked (v : cell) : option string :=
  match v with
  | Text q => if str_truthy (strip q) then Some q else None
  | _ => None
  end.



(** The calls that a complete run of the loop makes, in order. *)
Fixpoint questions_asked (index : nat) (rows : list (gmap string cell))
  : list (nat * payload) :=
  match rows with
  | [] => []
  | row :: rest =>
      match asked (question_of row) with
      | Some q => [(index, payload_of q)]
      | None => []
      end ++ questions_asked (S index) rest
  end.

(** No spreadsheet is written between the file systems [f] and [f']. *)
Definition no_sheet_written (f f' : gmap string file_content) : Prop :=
  ∀ p fmt d, f' !! p = Some (Spreadsheet fmt d) → f !! p = Some (Spreadsheet fmt d).

(** What a stretch of the loop that works on the rows in [touched] may
    change: the two derived cells of those rows, artifact files, the clock,
    and the trace of calls by calls made for those rows. *)
Definition row_frame (touched : nat → Prop) (st st' : DataFrame * world)
  : Prop :=
  columns st'.1 = columns st.1 ∧
  length (rows st'.1) = length (rows st.1) ∧
  (∀ j, ¬ touched j → rows st'.1 !! j = rows st.1 !! j) ∧
  (∀ j r, rows st.1 !! j = Some r →
     ∃ r', rows st'.1 !! j = Some r' ∧
       ∀ c, c ≠ extracted_text → c ≠ extracted_url → r' !! c = r !! c) ∧
  (∃ l, opened st'.2 = opened st.2 ++ l ∧
     ∀ p, p ∈ l → is_Some (strip_prefix "messages/" p)) ∧
  (∃ l, calls st'.2 = calls st.2 ++ l ∧ ∀ x, x ∈ l → touched x.1) ∧
  no_sheet_written (fs st.2) (fs st'.2).

(** Every run of [m] relates the state it starts in to the state it ends
    in, whether it returns or raises. *)
Definition preserves {S A} (R : S → S → Prop) (m : M S A) : Prop :=
  ∀ s, R s (m s).2.

Variable file_filename : string.
Variable file_bytes : list Byte.byte.

(** The table the handler loads. *)
Definition parsed : result DataFrame :=
  if decide (extension_of file_filename = ".xlsx")
  then read_excel E (Uploaded file_bytes)
  else read_csv E (Uploaded file_bytes).

(** The upload is accepted for processing as the table [df]: a supported
    extension, a file that parses, a [Question] column. *)
Definition accepted (df : DataFrame) : Prop :=
  (extension_of file_filename = ".xlsx" ∨ extension_of file_filename = ".csv") ∧
  parsed = Ok df ∧
  "Question" ∈ columns df.

Definition output_format : sheet_format :=
  if decide (extension_of file_filename = ".xlsx") then Excel else Csv.

(** The name of the output spreadsheet when the clock is read in [w]. *)
Definition output_filename_at (w : world) : string :=
  "processed_" +:+ now_strftime E (clock w) "%Y%m%d_%H%M%S" +:+
  extension_of file_filename.

(** The end of the handler once the loop has run on the accepted table. *)
Definition finish (r : result unit * (DataFrame * world))
  : http_result * world :=
  match r with
  | (Ok _, (df, w)) =>
      let output_filename := output_filename_at w in
      (FileResponse ("output/" +:+ output_filename) output_filename,
       record_write ("output/" +:+ output_filename)
         (Spreadsheet output_format df) (tick w))
  | (Raise e, (_, w)) => (ErrorJson (str_exn e), w)
  end.

(** From the check of the [Question] column to the end of the [try]. *)
Definition process_table (ext : string) (df : DataFrame) : M world http_result :=
  if decide ("Question" ∉ columns df) then
    mret (ErrorJson "The uploaded file must contain a 'Question' column.")
  else
    df ← process_rows (prepare df);
    stamp ← now "%Y%m%d_%H%M%S";
    let output_filename := "processed_" +:+ stamp +:+ ext in
    let output_filepath := "output/" +:+ output_filename in
    _ ← write_file output_filepath
          (Spreadsheet (if decide (ext = ".xlsx") then Excel else Csv) df);
    mret (FileResponse output_filepath output_filename).

Definition input_filepath : string := "output/" +:+ file_filename.

(** The [try] block of [process_file]. *)
Definition process_file_body : M world http_result :=
  _ ← write_file input_filepath (Uploaded file_bytes);
  let ext := extension_of file_filename in
  if decide (ext = ".xlsx") then
    content ← read_file input_filepath;
    df ← lift_result (read_excel E content);
    process_table ext df
  else if decide (ext = ".csv") then
    content ← read_file input_filepath;
    df ← lift_result (read_csv E content);
    process_table ext df
  else
    mret (ErrorJson "Unsupported file format. Upload Excel or CSV files.").

(** [process_file]: the [try] block, and [except Exception as e] around it. *)
Definition process_file (w : world) : http_result * world :=
  match process_file_body w with
  | (Ok r, w') => (r, w')
  | (Raise e, w') => (ErrorJson (str_exn e), w')
  end.

End Handler.

(** ** Concrete requests *)

Definition mk_row (cells : list (string * cell)) : gmap string cell :=
  list_to_map cells.

Definition ok_reply (message : json) : result response :=
  Ok {| status_code := 200; json_result := Ok (JObject [("message", message)]) |}.

Definition status_reply (status : Z) : result response :=
  Ok {| status_code := status; json_result := Raise (OtherException "Expecting value") |}.

(** An environment whose parsers return [table], whose remote service
    answers the call for row [i] with [api i], and whose clock shows its
    reading number. *)
Definition demo_env (table : DataFrame) (api : nat → result response) : Env :=
  {| read_excel := λ _, Ok table;
     read_csv := λ _, Ok table;
     requests_post := λ i _, api i;
     now_strftime := λ n _, String (ascii_of_nat (48 + n)) EmptyString |}.

Definition empty_world : world :=
  {| fs := ∅; opened := []; calls := []; clock := 0 |}.

Definition z_message : string :=
  "answer, Relevant URLs: <a href='http://z.com'>z</a>".

(** Three questions, the second one blank. *)
Definition three_rows : DataFrame :=
  {| columns := ["Question"; "Accuracy"];
     rows := [ mk_row [("Question", Text "What is X?"); ("Accuracy", Text "high")];
               mk_row [("Question", Text " "); ("Accuracy", Missing)];
               mk_row [("Question", Text "How to Y?"); ("Accuracy", Missing)] ] |}.

(** The service fails on the first row (HTTP 500), answers the second call
    with a [message] that is [null], and answers the third one properly. *)
Definition null_message_api (i : nat) : result response :=
  match i with
  | 0 => status_reply 500
  | 1 => ok_reply JNull
  | _ => ok_reply (JString z_message)
  end.

Definition three_questions : DataFrame :=
  {| columns := ["Question"];
     rows := [ mk_row [("Question", Text "q1")];
               mk_row [("Question", Text "q2")];
               mk_row [("Question", Text "q3")] ] |}.

(** HTTP 500 on the first row, a timeout on the third. *)
Definition flaky_api (i : nat) : result response :=
  match i with
  | 0 => status_reply 500
  | 2 => Raise (RequestException "Read timed out")
  | _ => ok_reply (JString z_message)
  end.

(** A number in the second [Question] cell. *)
Definition numeric_question : DataFrame :=
  {| columns := ["Question"];
     rows := [ mk_row [("Question", Text "q1")];
               mk_row [("Question", Number 42)];
               mk_row [("Question", Text "q3")] ] |}.

Definition answering_api (i : nat) : result response :=
  ok_reply (JString z_message).

Definition answering_env : Env := demo_env three_rows answering_api.
Definition flaky_env : Env := demo_env three_questions flaky_api.
Definition null_message_env : Env := demo_env three_questions null_message_api.
Definition numeric_env : Env := demo_env numeric_question flaky_api.

(** Two requests, one after the other, that upload different bytes under
    the same file name. *)
Definition first_upload : http_result * world :=
  process_file flaky_env "p" "v" "q.csv" [Byte.x31] empty_world.

Definition second_upload : http_result * world :=
  process_file answering_env "p2" "v2" "q.csv" [Byte.x32] first_upload.2.

Definition two_markers : string :=
  "Relevant URLs: <a href='http://a.com'>a</a> Relevant URLs: <a href='http://b.com'>b</a>".

(** What follows the first marker of [two_markers]. *)
Definition two_markers_suffix : string :=
  " <a href='http://a.com'>a</a> Relevant URLs: <a href='http://b.com'>b</a>".

(** ** Vocabulary of the further properties *)

(** Every character of [s] passes [test]. *)
Fixpoint all_chars (test : ascii → bool) (s : string) : bool :=
  match s with
  | EmptyString => true
  | String c s' => test c && all_chars test s'
  end.

(** [s] holds no quote character. *)
Definition unquoted (s : string) : bool := all_chars (λ c, negb (is_quote c)) s.

(** [sanitized_question] of [save_message_to_file]. *)
Definition sanitize (question : string) : string :=
  take_str 30 (map_str (λ c, if isalnum c then c else "_"%char) question).

(** The path of the artifact written for [question] when the clock shows
    its reading number [n]. *)
Definition artifact_path (E : Env) (question : string) (n : nat) : string :=
  "messages/" +:+ sanitize question +:+ "_" +:+
  now_strftime E n "%Y%m%d_%H%M%S" +:+ ".json".

(** [response_with_metadata] of [save_message_to_file]. *)
Definition artifact_doc (E : Env) (response_json message_text : json)
    (question product version : string) (n : nat) : json :=
  JObject [ ("question", JString question);
            ("product", JString product);
            ("version", JString version);
            ("timestamp", JString (now_strftime E n "%Y-%m-%d %H:%M:%S"));
            ("response_raw", response_json);
            ("response_message", message_text) ].

(** The text put in [Extracted URL] for the URLs [urls]. *)
Definition url_cell (urls : list string) : string :=
  match urls with
  | [] => "No URL found"
  | _ => join (String "010"%char EmptyString) urls
  end.

(** [response_json.get('message', '')] on the members of an object. *)
Definition message_text (members : list (string * json)) : json :=
  default (JString EmptyString) (assoc "message" members).

(** An environment like [answering_env] whose clock stands still. *)
Definition frozen_env : Env :=
  {| read_excel := λ _, Ok three_rows;
     read_csv := λ _, Ok three_rows;
     requests_post := λ i _, answering_api i;
     now_strftime := λ _ _, "20240101_000000" |}.

(** Every file of [w] is still there in [w']. *)
Definition files_kept (w w' : world) : Prop :=
  ∀ p, is_Some (fs w !! p) → is_Some (fs w' !! p).

Definition files_kept_st (st st' : DataFrame * world) : Prop :=
  files_kept st.2 st'.2.

(** A table without a [Question] column. *)
Definition prompts : DataFrame :=
  {| columns := ["Prompt"];
     rows := [ mk_row [("Prompt", Text "What is X?")] ] |}.

Definition prompts_env : Env := demo_env prompts answering_api.

(** An environment whose parsers fail. *)
Definition broken_env : Env :=
  {| read_excel := λ _, Raise (OtherException "File is not a zip file");
     read_csv := λ _, Raise (OtherException "No columns to parse from file");
     requests_post := λ i _, answering_api i;
     now_strftime := λ n _, String (ascii_of_nat (48 + n)) EmptyString |}.

(** A table whose questions are all missing or blank. *)
Definition blank_rows : DataFrame :=
  {| columns := ["Question"];
     rows := [ mk_row [("Question", Missing)];
               mk_row [("Question", Text "  ")] ] |}.

Definition blank_env : Env := demo_env blank_rows answering_api.

(** ** Vocabulary of the conditions on the table and on the writers *)

(** Both derived columns of [df] can hold a text. *)
Definition text_ready (df : DataFrame) : Prop :=
  takes_text df "Extracted Text" = true ∧ takes_text df "Extracted URL" = true.


(** The two assignments that end the round of an asked row. *)
Definition set_cells (index : nat) (text url : string)
  : M (DataFrame * world) unit :=
  _ ← df_at_set index "Extracted Text" (Text text);
  df_at_set index "Extracted URL" (Text url).

(** [urls_section] of [extract_urls_from_response]: the second piece of the
    split, the empty text when there is none. *)
Definition urls_section (response_text : string) : string :=
  nth 1 (str_split marker response_text) EmptyString.








(** A table that already has all twelve columns. *)
Definition full_table : DataFrame :=
  {| columns := "Question" :: evaluation_metrics ++ ["Extracted Text"; "Extracted URL"];
     rows := [ mk_row [("Question", Text "q1"); ("Accuracy", Number 3);
                       ("Extracted Text", Text "seen")] ] |}.

(** A reply with two distinct links, one of them twice. *)
Definition links_message : string :=
  "see Relevant URLs: <a href='http://a.com'>a</a> <a href='http://b.com'>b</a> <a href='http://a.com'>again</a>".

Definition links_api (i : nat) : result response :=
  ok_reply (JString links_message).

Definition links_env : Env := demo_env three_questions links_api.

(** * Properties *)

(** ** Splitting at the marker *)

Lemma append_nil r : EmptyString +:+ r = r.
Proof. reflexivity. Qed.

Lemma append_cons c a r : String c a +:+ r = String c (a +:+ r).
Proof. reflexivity. Qed.

Ltac simpl_append := rewrite ?append_nil, ?append_cons in *.

Lemma length_append a b :
  String.length (a +:+ b) = String.length a + String.length b.
Proof. induction a; simpl_append; simpl; congruence. Qed.

Lemma append_cancel_l a b b' : a +:+ b = a +:+ b' → b = b'.
Proof. induction a; simpl_append; [done|]. intros [= ?]. auto. Qed.

Lemma strip_prefix_Some p s r : strip_prefix p s = Some r ↔ s = p +:+ r.
Proof.
  revert s. induction p as [|a p IH]; intros s; simpl; simpl_append.
  - split; congruence.
  - destruct s as [|b s]; [split; discriminate|].
    destruct (Ascii.eqb_spec a b) as [->|Hne].
    + rewrite IH. split; congruence.
    + split; [discriminate | congruence].
Qed.

Lemma str_partition_eq sep s :
  str_partition sep s =
  match strip_prefix sep s with
  | Some rest => Some (EmptyString, rest)
  | None =>
      match s with
      | EmptyString => None
      | String c s' =>
          match str_partition sep s' with
          | Some (a, b) => Some (String c a, b)
          | None => None
          end
      end
  end.
Proof. destruct s; reflexivity. Qed.

Lemma str_partition_Some sep s a b :
  str_partition sep s = Some (a, b) → s = a +:+ sep +:+ b.
Proof.
  revert a. induction s as [|c s IH]; intros a; rewrite str_partition_eq;
    destruct (strip_prefix sep _) as [rest|] eqn:Hp.
  - intros [= <- <-]. simpl_append. by apply strip_prefix_Some.
  - discriminate.
  - intros [= <- <-]. simpl_append. by apply strip_prefix_Some.
  - destruct (str_partition sep s) as [[a0 b0]|]; [|discriminate].
    intros [= <- <-]. simpl_append. f_equal. by apply IH.
Qed.

Lemma str_partition_None sep s :
  str_partition sep s = None → ∀ a b, s ≠ a +:+ sep +:+ b.
Proof.
  induction s as [|c s IH]; rewrite str_partition_eq;
    destruct (strip_prefix sep _) as [rest|] eqn:Hp; try discriminate;
    intros Hnone [|c' a] b Heq; simpl_append.
  - apply strip_prefix_Some in Heq. congruence.
  - discriminate.
  - apply strip_prefix_Some in Heq. congruence.
  - injection Heq as -> Heq.
    destruct (str_partition sep s) as [[a0 b0]|]; [discriminate|].
    by eapply IH.
Qed.

Lemma str_partition_first sep s a b :
  str_partition sep s = Some (a, b) →
  ∀ a' b', s = a' +:+ sep +:+ b' → String.length a ≤ String.length a'.
Proof.
  revert a. induction s as [|c s IH]; intros a; rewrite str_partition_eq;
    destruct (strip_prefix sep _) as [rest|] eqn:Hp; try discriminate.
  - intros [= <- <-] a' b' _. simpl. lia.
  - intros [= <- <-] a' b' _. simpl. lia.
  - destruct (str_partition sep s) as [[a0 b0]|] eqn:Hs; [|discriminate].
    intros [= <- <-] [|c' a'] b' Heq; simpl_append.
    + apply strip_prefix_Some in Heq. congruence.
    + injection Heq as -> Heq. simpl.
      specialize (IH a0 eq_refl a' b' Heq). lia.
Qed.

Lemma str_partition_length sep s a b :
  str_partition sep s = Some (a, b) →
  String.length s = String.length a + String.length sep + String.length b.
Proof.
  intros ->%str_partition_Some. rewrite !length_append. lia.
Qed.

Lemma str_partition_empty sep :
  sep ≠ EmptyString → str_partition sep EmptyString = None.
Proof. destruct sep; [done|reflexivity]. Qed.

Lemma split_fuel_enough sep n m s :
  sep ≠ EmptyString → String.length s ≤ n → String.length s ≤ m →
  split_fuel n sep s = split_fuel m sep s.
Proof.
  intros Hsep. revert m s. induction n as [|n IH]; intros [|m] s Hn Hm; simpl.
  - done.
  - destruct s; [|simpl in Hn; lia]. by rewrite str_partition_empty.
  - destruct s; [|simpl in Hm; lia]. by rewrite str_partition_empty.
  - destruct (str_partition sep s) as [[a b]|] eqn:Hp; [|done].
    apply str_partition_length in Hp.
    assert (0 < String.length sep) by (destruct sep; [done|simpl; lia]).
    f_equal. apply IH; lia.
Qed.

(** [str_split] never runs out of rounds: it satisfies the equation of the
    cut-and-go-on loop. *)
Lemma str_split_unfold sep s :
  sep ≠ EmptyString →
  str_split sep s =
  match str_partition sep s with
  | None => [s]
  | Some (a, b) => a :: str_split sep b
  end.
Proof.
  intros Hsep. unfold str_split.
  destruct (str_partition sep s) as [[a b]|] eqn:Hp.
  - rewrite (split_fuel_enough sep _ (S (String.length s)) s) by (done || lia).
    simpl. rewrite Hp. f_equal.
    apply str_partition_length in Hp.
    apply split_fuel_enough; [done|lia..].
  - destruct (String.length s); simpl; by rewrite ?Hp.
Qed.

Lemma marker_nonempty : marker ≠ EmptyString.
Proof. discriminate. Qed.

Lemma app_same_length a a' r r' :
  a +:+ r = a' +:+ r' → String.length a = String.length a' → a = a' ∧ r = r'.
Proof.
  revert a'. induction a as [|c a IH]; intros [|c' a']; simpl;
    simpl_append; try done.
  intros [= -> Heq] [= Hlen]. destruct (IH _ Heq Hlen) as [-> ->]. done.
Qed.

Lemma str_partition_leftmost sep s a b :
  str_partition sep s = Some (a, b) ↔ leftmost sep s a b.
Proof.
  split.
  - intros Hp. split; [by apply str_partition_Some|].
    by apply (str_partition_first sep s a b).
  - intros [Heq Hmin].
    destruct (str_partition sep s) as [[a0 b0]|] eqn:Hp.
    + pose proof (str_partition_Some _ _ _ _ Hp) as Heq0.
      pose proof (str_partition_first _ _ _ _ Hp _ _ Heq) as Hle.
      pose proof (Hmin _ _ Heq0) as Hge.
      rewrite Heq in Heq0.
      destruct (app_same_length _ _ _ _ Heq0) as [-> Hr]; [lia|].
      apply append_cancel_l in Hr. by subst.
    + by destruct (str_partition_None _ _ Hp a b).
Qed.

(** ** Scanning for anchors *)

Lemma span_unquoted_app s u r : span_unquoted s = (u, r) → s = u +:+ r.
Proof.
  revert u. induction s as [|c s IH]; intros u; simpl.
  - by intros [= <- <-].
  - destruct (is_quote c); [by intros [= <- <-]|].
    destruct (span_unquoted s) as [u0 r0]. intros [= <- <-].
    simpl_append. f_equal. by apply IH.
Qed.

Lemma match_anchor_shorter s u rest :
  match_anchor s = Some (u, rest) → String.length rest < String.length s.
Proof.
  unfold match_anchor.
  destruct (strip_prefix _ s) as [[|q r]|] eqn:Hp; try discriminate.
  apply strip_prefix_Some in Hp as ->.
  destruct (is_quote q); [|discriminate].
  destruct (span_unquoted r) as [[|c u0] [|q' r']] eqn:Hs; try discriminate.
  apply span_unquoted_app in Hs as ->. intros [= <- <-].
  rewrite !length_append. simpl. rewrite length_append. simpl. lia.
Qed.

Lemma search_anchor_eq s :
  search_anchor s =
  match match_anchor s with
  | Some r => Some r
  | None =>
      match s with
      | EmptyString => None
      | String _ s' => search_anchor s'
      end
  end.
Proof. destruct s; reflexivity. Qed.

Lemma search_anchor_shorter s u rest :
  search_anchor s = Some (u, rest) → String.length rest < String.length s.
Proof.
  induction s as [|c s IH]; rewrite search_anchor_eq;
    destruct (match_anchor _) as [[u0 r0]|] eqn:Hm; try discriminate.
  - intros [= <- <-]. by eapply match_anchor_shorter.
  - intros H. apply IH in H. simpl. lia.
Qed.

Lemma findall_fuel_enough n m s :
  String.length s ≤ n → String.length s ≤ m →
  findall_fuel n s = findall_fuel m s.
Proof.
  revert m s. induction n as [|n IH]; intros [|m] s Hn Hm; simpl; try done.
  - destruct s; [done|simpl in Hn; lia].
  - destruct s; [done|simpl in Hm; lia].
  - destruct (search_anchor s) as [[u rest]|] eqn:Hs; [|done].
    apply search_anchor_shorter in Hs. f_equal. apply IH; lia.
Qed.

(** [findall_urls] never runs out of rounds either. *)
Lemma findall_urls_unfold s :
  findall_urls s =
  match search_anchor s with
  | None => []
  | Some (u, rest) => u :: findall_urls rest
  end.
Proof.
  unfold findall_urls.
  rewrite (findall_fuel_enough _ (S (String.length s)) s) by lia. simpl.
  destruct (search_anchor s) as [[u rest]|] eqn:Hs; [|done].
  apply search_anchor_shorter in Hs. f_equal.
  apply findall_fuel_enough; lia.
Qed.

(** ** The URL extractor *)

Lemma extract_urls_section s pre rest :
  str_partition marker s = Some (pre, rest) →
  extract_urls_from_response s =
  list_of_set (findall_urls
    match str_partition marker rest with
    | Some (mid, _) => mid
    | None => rest
    end).
Proof.
  intros Hp. unfold extract_urls_from_response.
  rewrite (str_split_unfold _ s marker_nonempty), Hp.
  rewrite (str_split_unfold _ rest marker_nonempty).
  by destruct (str_partition marker rest) as [[mid post]|].
Qed.

Lemma elem_of_list_of_set u urls : u ∈ list_of_set urls ↔ u ∈ urls.
Proof. unfold list_of_set. by rewrite elem_of_elements, elem_of_list_to_set. Qed.

(** C2 (as the code has it): when the marker occurs twice or more, the
    extractor scans the text between the first and the second occurrence,
    and returns exactly the href values captured there; what follows the
    second occurrence is not scanned. *)
Theorem extract_urls_scans_first_section s pre mid post :
  leftmost marker s pre (mid +:+ marker +:+ post) →
  leftmost marker (mid +:+ marker +:+ post) mid post →
  ∀ u, u ∈ extract_urls_from_response s ↔ u ∈ findall_urls mid.
Proof.
  intros H1%str_partition_leftmost H2%str_partition_leftmost u.
  rewrite (extract_urls_section _ _ _ H1), H2.
  apply elem_of_list_of_set.
Qed.

Lemma extract_urls_scans_first_section_witness :
  "http://a.com" ∈ extract_urls_from_response two_markers
  ↔ "http://a.com" ∈ findall_urls " <a href='http://a.com'>a</a> ".
Proof.
  apply (extract_urls_scans_first_section two_markers EmptyString
           " <a href='http://a.com'>a</a> " " <a href='http://b.com'>b</a>");
    apply str_partition_leftmost; reflexivity.
Defined.

(** C2 (as stated) fails: [two_markers] holds the marker twice, the href
    [http://b.com] is captured in the text after the first marker, and the
    extractor does not return it. *)
Lemma extract_urls_misses_later_sections :
  leftmost marker two_markers EmptyString two_markers_suffix ∧
  (∃ a b, two_markers_suffix = a +:+ marker +:+ b) ∧
  "http://b.com" ∈ findall_urls two_markers_suffix ∧
  "http://b.com" ∉ extract_urls_from_response two_markers.
Proof.
  split; [apply str_partition_leftmost; reflexivity|].
  split; [by exists " <a href='http://a.com'>a</a> ", " <a href='http://b.com'>b</a>"|].
  assert (findall_urls two_markers_suffix = ["http://a.com"; "http://b.com"])
    as -> by (vm_compute; reflexivity).
  assert (extract_urls_from_response two_markers = ["http://a.com"])
    as -> by (vm_compute; reflexivity).
  split; [set_solver|].
  intros [=]%list_elem_of_singleton.
Qed.

(** C7: a response text that does not contain the marker yields no URL. *)
Theorem extract_urls_without_marker s :
  (∀ a b, s ≠ a +:+ marker +:+ b) → extract_urls_from_response s = [].
Proof.
  intros Hno. unfold extract_urls_from_response.
  rewrite (str_split_unfold _ s marker_nonempty).
  destruct (str_partition marker s) as [[a b]|] eqn:Hp; [|done].
  by destruct (Hno a b); apply str_partition_Some.
Qed.

Lemma extract_urls_without_marker_witness :
  extract_urls_from_response "see <a href='http://a.com'>the manual</a>" = [].
Proof.
  apply extract_urls_without_marker.
  apply str_partition_None. reflexivity.
Defined.






(** ** State, exceptions and frames *)

Section Preserves.

Context {S : Type} (R : S → S → Prop) `{!PreOrder R}.

Lemma preserves_ret {A} (a : A) : preserves R (mret a : M S A).
Proof. intros s. simpl. reflexivity. Qed.

Lemma preserves_raise {A} e : preserves R (raise e : M S A).
Proof. intros s. simpl. reflexivity. Qed.

Lemma preserves_lift_result {A} (r : result A) :
  preserves R (lift_result r : M S A).
Proof. intros s. simpl. reflexivity. Qed.

Lemma preserves_bind {A B} (m : M S A) (k : A → M S B) :
  preserves R m → (∀ a, preserves R (k a)) → preserves R (m ≫= k).
Proof.
  intros Hm Hk s. specialize (Hm s). unfold mbind, M_bind.
  destruct (m s) as [[a|e] s']; simpl in *; [|done].
  etransitivity; [exact Hm|apply Hk].
Qed.

Lemma preserves_try_except {A} (body : M S A) catches handler :
  preserves R body → (∀ e, preserves R (handler e)) →
  preserves R (try_except body catches handler).
Proof.
  intros Hb Hh s. specialize (Hb s). unfold try_except.
  destruct (body s) as [[a|e] s']; simpl in *; [done|].
  destruct (catches e); [|done].
  etransitivity; [exact Hb|apply Hh].
Qed.

End Preserves.

#[global] Instance row_frame_preorder touched : PreOrder (row_frame touched).
Proof.
  split.
  - intros st. unfold row_frame, no_sheet_written. split_and!; try done.
    + intros j r ->. by exists r.
    + exists []. split; [by rewrite app_nil_r|]. by intros p ?%elem_of_nil.
    + exists []. split; [by rewrite app_nil_r|]. by intros p ?%elem_of_nil.
  - intros st1 st2 st3
      (Hc & Hl & Ho & Hr & (lo & Hlo & Hlo') & (lc & Hlc & Hlc') & Hs)
      (Hc' & Hl' & Ho' & Hr' & (lo2 & Hlo2 & Hlo2') & (lc2 & Hlc2 & Hlc2') & Hs').
    unfold row_frame. split_and!; [| | | | | |intros p fmt d ?; auto].
    + congruence.
    + congruence.
    + intros j Hj. rewrite Ho', Ho; done.
    + intros j r Hj. destruct (Hr j r Hj) as (r1 & Hj1 & Hr1).
      destruct (Hr' j r1 Hj1) as (r2 & Hj2 & Hr2).
      exists r2. split; [done|]. intros c ? ?. rewrite Hr2, Hr1; done.
    + exists (lo ++ lo2). split; [by rewrite Hlo2, Hlo, assoc_L by apply _|].
      intros p [?|?]%elem_of_app; auto.
    + exists (lc ++ lc2). split; [by rewrite Hlc2, Hlc, assoc_L by apply _|].
      intros p [?|?]%elem_of_app; auto.
Qed.

Lemma row_frame_mono (P Q : nat → Prop) st st' :
  (∀ j, P j → Q j) → row_frame P st st' → row_frame Q st st'.
Proof.
  intros HPQ (Hc & Hl & Ho & Hr & Hw & (lc & Hlc & Hlc') & Hs).
  unfold row_frame. split_and!; try done.
  - intros j Hj. apply Ho. auto.
  - exists lc. auto.
Qed.

Lemma preserves_mono {A} (P Q : nat → Prop) (m : M (DataFrame * world) A) :
  (∀ j, P j → Q j) → preserves (row_frame P) m → preserves (row_frame Q) m.
Proof. intros HPQ Hm s. eapply row_frame_mono; [exact HPQ|apply Hm]. Qed.

Lemma df_at_set_preserves i c v :
  c = extracted_text ∨ c = extracted_url →
  preserves (row_frame (λ j, j = i)) (df_at_set i c v).
Proof.
  intros Hc [df w]. unfold df_at_set.
  destruct (refuses _ _ _); [reflexivity|].
  unfold row_frame, set_at. simpl. split_and!.
  - done.
  - apply length_alter.
  - intros j Hj. apply list_lookup_alter_ne. congruence.
  - intros j r Hj. destruct (decide (i = j)) as [->|Hne].
    + rewrite list_lookup_alter_eq, Hj. simpl. eexists. split; [done|].
      intros c' ? ?. apply lookup_insert_ne. destruct Hc; congruence.
    + rewrite list_lookup_alter_ne by done. by exists r.
  - exists []. split; [by rewrite app_nil_r|]. by intros p ?%elem_of_nil.
  - exists []. split; [by rewrite app_nil_r|]. by intros p ?%elem_of_nil.
  - by intros p fmt d ?.
Qed.

(** *** Assignments and the dtype of a column *)

Lemma infer_dtype_text l : existsb is_text l = true → infer_dtype l = DObject.
Proof. unfold infer_dtype. destruct l; [done|]. by intros ->. Qed.

Lemma alter_out_of_range {A} (f : A → A) i (l : list A) :
  l !! i = None → alter f i l = l.
Proof.
  revert i. induction l as [|x l IH]; intros [|i] Hi; try done.
  cbn. f_equal. by apply IH.
Qed.

Lemma infer_dtype_alter_text s i l :
  infer_dtype l = DObject → infer_dtype (alter (λ _, Text s) i l) = DObject.
Proof.
  intros Hl. destruct (l !! i) as [x|] eqn:Hi.
  - apply infer_dtype_text, existsb_exists. exists (Text s). split; [|done].
    apply list_elem_of_In, list_elem_of_lookup. exists i.
    by rewrite list_lookup_alter_eq, Hi.
  - by rewrite alter_out_of_range.
Qed.

Lemma column_set_at i c v df c' :
  column (set_at i c v df) c' =
  if decide (c' = c) then alter (λ _, v) i (column df c') else column df c'.
Proof.
  unfold column, set_at. cbn [rows]. case_decide as Hc.
  - subst c'. apply list_fmap_alter, Forall_forall. intros r _.
    by rewrite lookup_insert_eq.
  - etransitivity; [|by apply (list_alter_id id _ i)].
    apply list_fmap_alter, Forall_forall. intros r _.
    by rewrite lookup_insert_ne.
Qed.

Lemma takes_text_set_at i c s df c' :
  takes_text df c' = true → takes_text (set_at i c (Text s) df) c' = true.
Proof.
  unfold takes_text. rewrite column_set_at. case_decide; [|done].
  destruct (infer_dtype (column df c')) eqn:Hd; try done.
  by rewrite infer_dtype_alter_text.
Qed.


Lemma df_at_set_text i c s st :
  takes_text st.1 c = true →
  df_at_set i c (Text s) st = (Ok tt, (set_at i c (Text s) st.1, st.2)).
Proof. intros Hc. unfold df_at_set, refuses. by rewrite Hc. Qed.

Lemma df_at_set_inv i c v st st' :
  df_at_set i c v st = (Ok tt, st') → st' = (set_at i c v st.1, st.2).
Proof. unfold df_at_set. destruct (refuses _ _ _); by intros [=]. Qed.

Lemma df_at_set_raises i c v st e st' :
  df_at_set i c v st = (Raise e, st') →
  st' = st ∧ is_request_exception e = false.
Proof.
  unfold df_at_set. destruct (refuses _ _ _); [|done]. by intros [= <- <-].
Qed.

Lemma set_cells_ok i t u st :
  text_ready st.1 →
  set_cells i t u st =
  (Ok tt,
   (set_at i "Extracted URL" (Text u) (set_at i "Extracted Text" (Text t) st.1),
    st.2)).
Proof.
  intros [Ht Hu]. unfold set_cells, mbind, M_bind.
  rewrite df_at_set_text by done.
  rewrite df_at_set_text; [done|]. by apply takes_text_set_at.
Qed.

Lemma set_cells_inv i t u st st' :
  set_cells i t u st = (Ok tt, st') →
  st' =
  (set_at i "Extracted URL" (Text u) (set_at i "Extracted Text" (Text t) st.1),
   st.2).
Proof.
  unfold set_cells, mbind, M_bind.
  destruct (df_at_set i "Extracted Text" _ st) as [[[]|e] st1] eqn:H1; [|done].
  apply df_at_set_inv in H1 as ->. intros H2. by apply df_at_set_inv in H2 as ->.
Qed.

Lemma no_sheet_written_insert f p content :
  (∃ data, content = Uploaded data) ∨ (∃ doc, content = JsonFile doc) →
  no_sheet_written f (<[p := content]> f).
Proof.
  intros Hc q fmt d. destruct (decide (p = q)) as [->|].
  - rewrite lookup_insert_eq. by destruct Hc as [[? ->]|[? ->]].
  - by rewrite lookup_insert_ne.
Qed.

(** A step on the world alone that opens only artifact files and makes
    calls only for the rows in [touched]. *)
Lemma lift_preserves {A} touched (m : M world A) :
  (∀ w, (∃ l, opened (m w).2 = opened w ++ l ∧
           ∀ p, p ∈ l → is_Some (strip_prefix "messages/" p)) ∧
        (∃ l, calls (m w).2 = calls w ++ l ∧ ∀ x, x ∈ l → touched x.1) ∧
        no_sheet_written (fs w) (fs (m w).2)) →
  preserves (row_frame touched) (lift m).
Proof.
  intros Hm [df w]. unfold lift, row_frame. simpl.
  destruct (Hm w) as (Ho & Hc & Hs). destruct (m w) as [r w']. simpl in *.
  split_and!; try done. intros j r0 ->. by exists r0.
Qed.

Lemma save_message_object E members question product version w :
  save_message_to_file E (JObject members) question product version w
  = (Ok (artifact_path E question (clock w)),
     record_write (artifact_path E question (clock w))
       (JsonFile (artifact_doc E (JObject members) (message_text members)
                    question product version (S (clock w))))
       (tick (tick w))).
Proof. reflexivity. Qed.

(** ** The row loop *)

Section Rows.

Variable E : Env.
Variables product version : string.

Abbreviation askE := (ask E product version).
Abbreviation process_rowE := (process_row E product version).
Abbreviation iterrows_loopE := (iterrows_loop E product version).
Abbreviation payloadE := (payload_of product version).

Lemma post_preserves i q :
  preserves (row_frame (λ j, j = i)) (lift (post E i (payloadE q))).
Proof.
  apply lift_preserves. intros w. simpl. split_and!.
  - exists []. split; [by rewrite app_nil_r|]. by intros p ?%elem_of_nil.
  - eexists. split; [done|]. by intros x ->%list_elem_of_singleton.
  - by intros p fmt d ?.
Qed.

Lemma save_preserves touched response_json q :
  preserves (row_frame touched)
    (lift (save_message_to_file E response_json q product version)).
Proof.
  apply lift_preserves. intros w.
  cbv [save_message_to_file now write_file lift_result mbind M_bind mret M_ret].
  destruct (json_get response_json _ _) as [message_text|e];
    unfold record_write, tick; cbn [snd fs opened calls].
  - split_and!.
    + eexists. split; [done|]. intros p ->%list_elem_of_singleton.
      eexists. by apply strip_prefix_Some.
    + exists []. split; [by rewrite app_nil_r|]. by intros x ?%elem_of_nil.
    + apply no_sheet_written_insert. right. by eexists.
  - split_and!.
    + exists []. split; [by rewrite app_nil_r|]. by intros p ?%elem_of_nil.
    + exists []. split; [by rewrite app_nil_r|]. by intros x ?%elem_of_nil.
    + by intros p fmt d ?.
Qed.

Ltac frame :=
  repeat first
    [ apply preserves_ret; apply _
    | apply preserves_raise; apply _
    | apply preserves_lift_result; apply _
    | apply df_at_set_preserves; by auto
    | apply post_preserves
    | apply save_preserves
    | apply preserves_bind; [apply _| |intros ?]
    | apply preserves_try_except; [apply _| |intros ?]
    | case_decide ].

Lemma ask_preserves i q : preserves (row_frame (λ j, j = i)) (askE i q).
Proof. unfold ask. frame. Qed.

Lemma process_row_preserves i row :
  preserves (row_frame (λ j, j = i)) (process_rowE i row).
Proof.
  unfold process_row.
  destruct (question_of row); [frame| |frame..].
  destruct (str_truthy _); [apply ask_preserves|frame].
Qed.

Lemma iterrows_loop_preserves rows k :
  preserves (row_frame (λ j, k ≤ j < k + length rows)) (iterrows_loopE k rows).
Proof.
  revert k. induction rows as [|row rest IH]; intros k; simpl.
  - frame.
  - apply preserves_bind; [apply _| |intros _].
    + eapply preserves_mono; [|apply process_row_preserves]. simpl. lia.
    + eapply preserves_mono; [|apply IH]. simpl. lia.
Qed.

(** *** What one round does *)

Lemma process_row_blank i row st :
  is_blank (question_of row) = true → process_rowE i row st = (Ok tt, st).
Proof.
  unfold process_row, is_blank.
  destruct (question_of row); try done.
  by destruct (str_truthy _).
Qed.

Lemma process_row_asked i row q st :
  asked (question_of row) = Some q → process_rowE i row st = askE i q st.
Proof.
  unfold process_row, asked.
  destruct (question_of row); try done.
  destruct (str_truthy _); [|done]. by intros [= ->].
Qed.

Lemma process_row_not_text i row st :
  is_blank (question_of row) = false → asked (question_of row) = None →
  process_rowE i row st =
  (Raise (AttributeError (cell_type_name (question_of row)) "strip"), st).
Proof.
  unfold process_row, is_blank, asked.
  destruct (question_of row); try done.
  by destruct (str_truthy _).
Qed.

(** *** What a call does, by the reply *)


Lemma ask_request_exception_cells i q st d :
  requests_post E i (payloadE q) = Raise (RequestException d) →
  askE i q st =
  set_cells i "Error: API request failed" "No URL found"
    (st.1, record_call i (payloadE q) st.2).
Proof.
  intros Hr. destruct st as [df w].
  unfold ask, try_except, post, lift, mbind, M_bind. cbn [fst snd].
  by rewrite Hr.
Qed.

Lemma ask_decode_exception_cells i q st r d :
  requests_post E i (payloadE q) = Ok r →
  status_code r = 200%Z →
  json_result r = Raise (RequestException d) →
  askE i q st =
  set_cells i "Error: API request failed" "No URL found"
    (st.1, record_call i (payloadE q) st.2).
Proof.
  intros Hr Hs Hj. destruct st as [df w].
  unfold ask, try_except, post, lift, lift_result, mbind, M_bind. cbn [fst snd].
  by rewrite Hr, decide_True, Hj.
Qed.

Lemma ask_ok_cells i q st r members m :
  requests_post E i (payloadE q) = Ok r →
  status_code r = 200%Z →
  json_result r = Ok (JObject members) →
  message_text members = JString m →
  askE i q st =
  match set_cells i m (url_cell (extract_urls_from_response m))
          (st.1, record_call i (payloadE q) st.2) with
  | (Ok _, st1) =>
      (Ok tt,
       (st1.1,
        record_write (artifact_path E q (clock st1.2))
          (JsonFile (artifact_doc E (JObject members) (JString m) q product
                       version (S (clock st1.2))))
          (tick (tick st1.2))))
  | (Raise e, st1) => (Raise e, st1)
  end.
Proof.
  intros Hr Hs Hj Hm. destruct st as [df w].
  unfold ask, try_except, post, lift, lift_result, set_cells, mbind, M_bind.
  cbn [fst snd]. rewrite Hr, decide_True, Hj by done. cbn [json_get].
  fold (message_text members). rewrite Hm. cbn [extract_urls].
  fold (url_cell (extract_urls_from_response m)).
  destruct (df_at_set i "Extracted Text" _ _) as [[[]|e] st1] eqn:H1.
  - destruct (df_at_set i "Extracted URL" _ _) as [[[]|e] st2] eqn:H2.
    + rewrite save_message_object, Hm. reflexivity.
    + by apply df_at_set_raises in H2 as [_ ->].
  - by apply df_at_set_raises in H1 as [_ ->].
Qed.




Lemma ask_ok_reply i q st r members m :
  text_ready st.1 →
  requests_post E i (payloadE q) = Ok r →
  status_code r = 200%Z →
  json_result r = Ok (JObject members) →
  message_text members = JString m →
  askE i q st =
  (Ok tt,
   (set_at i "Extracted URL" (Text (url_cell (extract_urls_from_response m)))
      (set_at i "Extracted Text" (Text m) st.1),
    record_write (artifact_path E q (clock st.2))
      (JsonFile (artifact_doc E (JObject members) (JString m) q product version
                   (S (clock st.2))))
      (tick (tick (record_call i (payloadE q) st.2))))).
Proof.
  intros Hst Hr Hs Hj Hm. rewrite (ask_ok_cells i q st r members m) by done.
  by rewrite set_cells_ok.
Qed.



(** *** What the loop does *)



(** In a loop that runs to its end, the round of the row [k + i] starts
    after rounds that left that row alone, and is followed by rounds that
    leave it alone. *)
Lemma iterrows_loop_round rows k st st' i row :
  iterrows_loopE k rows st = (Ok tt, st') → rows !! i = Some row →
  ∃ st1 st2,
    row_frame (λ j, k ≤ j < k + i) st st1 ∧
    process_rowE (k + i) row st1 = (Ok tt, st2) ∧
    row_frame (λ j, k + i < j) st2 st'.
Proof.
  revert k st i. induction rows as [|row0 rest IH]; intros k st i; [done|].
  simpl. unfold mbind, M_bind.
  pose proof (process_row_preserves k row0 st) as Hframe.
  destruct (process_rowE k row0 st) as [[[]|e] st1] eqn:Hrow; [|done].
  intros Hloop Hi. destruct i as [|i]; simpl in *.
  - injection Hi as ->. exists st, st1. split_and!.
    + reflexivity.
    + by rewrite Nat.add_0_r.
    + pose proof (iterrows_loop_preserves rest (S k) st1) as Hrest.
      rewrite Hloop in Hrest. eapply row_frame_mono; [|exact Hrest].
      simpl. lia.
  - destruct (IH _ _ _ Hloop Hi) as (st2 & st3 & H1 & H2 & H3).
    exists st2, st3. split_and!.
    + etransitivity; (eapply row_frame_mono; [|done]); simpl; lia.
    + by rewrite <- Nat.add_succ_comm.
    + eapply row_frame_mono; [|done]. simpl. lia.
Qed.

(** A [Question] cell that is neither missing nor a text stops the loop,
    at the latest when its row is reached. *)
Lemma iterrows_loop_raises rows k st i row :
  rows !! i = Some row →
  is_blank (question_of row) = false → asked (question_of row) = None →
  ∃ e st', iterrows_loopE k rows st = (Raise e, st') ∧
           row_frame (λ j, k ≤ j < k + i) st st'.
Proof.
  intros Hi Hblank Hasked. revert k st i Hi.
  induction rows as [|row0 rest IH]; intros k st i Hi; [done|].
  simpl. unfold mbind, M_bind.
  pose proof (process_row_preserves k row0 st) as Hframe.
  destruct i as [|i]; simpl in *.
  - injection Hi as ->. rewrite process_row_not_text by done.
    eexists _, _. split; [done|]. reflexivity.
  - destruct (process_rowE k row0 st) as [[[]|e] st1] eqn:Hrow; simpl in *.
    + destruct (IH (S k) st1 i Hi) as (e & st' & Hloop & Hrest).
      exists e, st'. split; [done|].
      etransitivity; (eapply row_frame_mono; [|done]); simpl; lia.
    + exists e, st1. split; [done|].
      eapply row_frame_mono; [|done]. simpl. lia.
Qed.

(** *** The columns added before the loop *)

Lemma foldl_ensure_column l df :
  ∃ g, rows (foldl ensure_column df l) = g <$> rows df ∧
       (∀ c, c ∈ columns (foldl ensure_column df l) ↔ c ∈ columns df ∨ c ∈ l) ∧
       ∀ r c, g r !! c =
              if decide (c ∈ columns df) then r !! c
              else if decide (c ∈ l) then Some (Text EmptyString)
              else r !! c.
Proof.
  revert df. induction l as [|a l IH]; intros df; simpl.
  - exists id. split_and!.
    + by rewrite list_fmap_id.
    + intros c. rewrite elem_of_nil. tauto.
    + intros r c. by repeat case_decide.
  - destruct (IH (ensure_column df a)) as (g & Hrows & Hcols & Hg).
    assert ((a ∈ columns df ∧ ensure_column df a = df) ∨
            ((a ∉ columns df) ∧
             columns (ensure_column df a) = (columns df ++ [a]) ∧
             rows (ensure_column df a)
             = ((λ r, <[a := Text EmptyString]> r) <$> rows df)))
      as [[Ha Heq]|(Ha & Hc & Hr)].
    { unfold ensure_column, add_column.
      destruct (decide (a ∈ columns df)); [left|right]; by split_and!. }
    + rewrite Heq in Hrows, Hcols, Hg |- *. exists g. split_and!; [done| |].
      * intros c. rewrite Hcols. set_solver.
      * intros r c. rewrite Hg. repeat case_decide; try done; set_solver.
    + rewrite Hc in Hcols, Hg. rewrite Hr in Hrows.
      exists (g ∘ (λ r, <[a := Text EmptyString]> r)). split_and!.
      * by rewrite list_fmap_compose.
      * intros c. rewrite Hcols. set_solver.
      * intros r c. simpl. rewrite Hg.
        destruct (decide (c = a)) as [->|Hne].
        -- rewrite lookup_insert_eq. repeat case_decide; try done; set_solver.
        -- rewrite lookup_insert_ne by done.
           repeat case_decide; try done; set_solver.
Qed.

Lemma prepare_spec df :
  ∃ g, rows (prepare df) = g <$> rows df ∧
       (∀ c, c ∈ columns (prepare df) ↔
             c ∈ columns df ∨ c ∈ evaluation_metrics ++ [extracted_text; extracted_url]) ∧
       ∀ r c, g r !! c =
              if decide (c ∈ columns df) then r !! c
              else if decide (c ∈ evaluation_metrics ++ [extracted_text; extracted_url])
                   then Some (Text EmptyString)
              else r !! c.
Proof.
  replace (prepare df) with
    (foldl ensure_column df (evaluation_metrics ++ [extracted_text; extracted_url]))
    by (unfold prepare; by rewrite foldl_app).
  apply foldl_ensure_column.
Qed.

Lemma questions_asked_fmap (g : gmap string cell → gmap string cell) rows k :
  (∀ r, question_of (g r) = question_of r) →
  questions_asked product version k (g <$> rows)
  = questions_asked product version k rows.
Proof.
  intros Hg. revert k. induction rows as [|r rest IH]; intros k; simpl; [done|].
  by rewrite Hg, IH.
Qed.




(** *** Rows that stop the loop *)








End Rows.

(** ** The request handler *)

Section Requests.

Variable E : Env.
Variables product version : string.
Variable filename : string.
Variable bytes : list Byte.byte.

Abbreviation handle := (process_file E product version filename bytes).
Abbreviation loop := (iterrows_loop E product version).
Abbreviation uploaded w := (record_write (input_filepath filename) (Uploaded bytes) w).

(** An accepted upload: the handler saves it, runs the loop on the prepared
    table and finishes. *)
Lemma process_file_accepted df w :
  accepted E filename bytes df →
  handle w = finish E filename (loop 0 (rows (prepare df)) (prepare df, uploaded w)).
Proof.
  intros (Hext & Hparsed & Hquestion). unfold parsed in Hparsed.
  unfold process_file, process_file_body, process_table, process_rows, finish,
    output_filename_at, output_format, now, write_file, read_file, lift_result,
    mbind, M_bind, mret, M_ret.
  destruct (decide (extension_of filename = ".xlsx")) as [Hx|Hx];
    [|rewrite decide_True by (by destruct Hext)];
    cbn [fs record_write]; rewrite lookup_insert_eq, Hparsed;
    (rewrite decide_False by (by intros []));
    by destruct (iterrows_loop _ _ _ _ _ _) as [[[]|e] [df' w']].
Qed.

Lemma accepted_dec :
  (∃ df, accepted E filename bytes df) ∨ (∀ df, ¬ accepted E filename bytes df).
Proof.
  unfold accepted.
  destruct (decide (extension_of filename = ".xlsx")) as [Hx|Hx];
    [|destruct (decide (extension_of filename = ".csv")) as [Hc|Hc]].
  3: { right. intros df ([?|?] & _); done. }
  all: destruct (parsed E filename bytes) as [df|e] eqn:Hp;
    [|right; intros df (_ & ? & _); done].
  all: destruct (decide ("Question" ∈ columns df));
    [left; exists df; auto|right; intros df' (_ & [= <-] & ?); done].
Qed.

(** An upload that is not accepted: the handler saves it and answers with
    an error. *)
Lemma process_file_not_accepted w :
  (∀ df, ¬ accepted E filename bytes df) →
  ∃ msg, handle w = (ErrorJson msg, uploaded w).
Proof.
  intros Hno. unfold accepted, parsed in Hno.
  unfold process_file, process_file_body, process_table, read_file, write_file,
    lift_result, mbind, M_bind, mret, M_ret.
  destruct (decide (extension_of filename = ".xlsx")) as [Hx|Hx];
    [|destruct (decide (extension_of filename = ".csv")) as [Hc|Hc]];
    cbn [fs record_write]; rewrite ?lookup_insert_eq; [| |by eexists].
  - destruct (read_excel E _) as [df|e] eqn:Hp; [|by eexists].
    destruct (decide ("Question" ∉ columns df)) as [|Hq]; [by eexists|].
    destruct (Hno df). split_and!; auto. by apply dec_stable.
  - destruct (read_csv E _) as [df|e] eqn:Hp; [|by eexists].
    destruct (decide ("Question" ∉ columns df)) as [|Hq]; [by eexists|].
    destruct (Hno df). split_and!; auto. by apply dec_stable.
Qed.

(** The row that the loop sees for a row of the accepted table. *)
Lemma prepared_row df i row :
  "Question" ∈ columns df → rows df !! i = Some row →
  ∃ row', rows (prepare df) !! i = Some row' ∧
          question_of row' = question_of row ∧
          ∀ c, row' !! c =
               if decide (c ∈ columns df) then row !! c
               else if decide (c ∈ evaluation_metrics ++ [extracted_text; extracted_url])
                    then Some (Text EmptyString)
               else row !! c.
Proof.
  intros Hq Hi. destruct (prepare_spec df) as (g & Hrows & _ & Hg).
  exists (g row). rewrite Hrows, list_lookup_fmap, Hi. split_and!; [done| |done].
  unfold question_of. by rewrite Hg, decide_True.
Qed.

Lemma upload_no_sheet w : no_sheet_written (fs w) (fs (uploaded w)).
Proof. apply no_sheet_written_insert. left. by eexists. Qed.

(** *** Rejected uploads *)


(** *** The working file *)

Lemma process_file_opens w :
  ∃ later, opened (handle w).2 = opened w ++ ("output/" +:+ filename) :: later.
Proof.
  destruct accepted_dec as [[df Hdf]|Hno].
  - rewrite (process_file_accepted df w Hdf).
    pose proof (iterrows_loop_preserves E product version (rows (prepare df)) 0
                  (prepare df, uploaded w)) as (_ & _ & _ & _ & (l & Hl & _) & _).
    destruct (iterrows_loop _ _ _ _ _ _) as [[[]|e] [df' w']];
      simpl in Hl |- *; rewrite Hl.
    + exists (l ++ ["output/" +:+ output_filename_at E filename w']).
      unfold input_filepath. by rewrite <- !(assoc_L (++)).
    + exists l. unfold input_filepath. by rewrite <- !(assoc_L (++)).
  - destruct (process_file_not_accepted w Hno) as [msg ->]. by exists [].
Qed.

(** *** A question that is not a text *)

(** C10: when some row of an accepted table holds in [Question] a value
    that is neither missing nor a text, the request fails: the handler
    answers with an error, and has written nothing but the working copy of
    the upload and the artifacts of earlier rows (no output spreadsheet);
    no row from that one on is sent to the service. *)
Theorem non_text_question_fails_request df i row w :
  accepted E filename bytes df →
  rows df !! i = Some row →
  not_text (question_of row) = true →
  ∃ msg artifacts made,
    handle w = (ErrorJson msg, (handle w).2) ∧
    opened (handle w).2 = opened w ++ ("output/" +:+ filename) :: artifacts ∧
    (∀ p, p ∈ artifacts → is_Some (strip_prefix "messages/" p)) ∧
    no_sheet_written (fs w) (fs (handle w).2) ∧
    calls (handle w).2 = calls w ++ made ∧
    (∀ x, x ∈ made → x.1 < i).
Proof.
  intros Hdf Hi Hv. rewrite (process_file_accepted df w Hdf).
  destruct Hdf as (_ & _ & Hq).
  destruct (prepared_row df i row Hq Hi) as (row' & Hi' & Hq' & _).
  destruct (iterrows_loop_raises E product version (rows (prepare df)) 0
              (prepare df, uploaded w) i row' Hi')
    as (e & [df' w'] & -> & (_ & _ & _ & _ & (lo & Hlo & Hlo') & (lc & Hlc & Hlc') & Hs)).
  { rewrite Hq'. by destruct (question_of row). }
  { rewrite Hq'. by destruct (question_of row). }
  cbn [fst snd finish opened calls fs record_write] in *.
  exists (str_exn e), lo, lc. split_and!; try done.
  - rewrite Hlo. unfold input_filepath. by rewrite <- (assoc_L (++)).
  - intros p fmt d Hp. by apply upload_no_sheet, Hs.
  - intros x Hx. apply Hlc' in Hx. lia.
Qed.

(** *** Runs that return the spreadsheet *)

Lemma finish_file r path name w' :
  finish E filename r = (FileResponse path name, w') →
  ∃ df_out w2,
    r = (Ok tt, (df_out, w2)) ∧
    fs w' !! path = Some (Spreadsheet (output_format filename) df_out) ∧
    calls w' = calls w2.
Proof.
  destruct r as [[[]|e] [df_out w2]]; cbn [finish]; [|done].
  intros [= <- <- <-]. exists df_out, w2. split_and!; [done| |done].
  cbn [fs record_write]. apply lookup_insert_eq.
Qed.

Lemma loop_output_row df0 w0 df_out w2 i row' :
  loop 0 (rows df0) (df0, w0) = (Ok tt, (df_out, w2)) →
  rows df0 !! i = Some row' →
  ∃ st1 st2,
    process_row E product version i row' st1 = (Ok tt, st2) ∧
    rows st1.1 !! i = Some row' ∧
    rows df_out !! i = rows st2.1 !! i.
Proof.
  intros Hloop Hi.
  destruct (iterrows_loop_round _ _ _ _ _ _ _ _ _ Hloop Hi)
    as (st1 & st2 & (_ & _ & H1 & _) & Hround & (_ & _ & H2 & _)).
  exists st1, st2. split_and!; [done| |].
  - rewrite H1 by lia. done.
  - apply H2. lia.
Qed.

(** A run that returns the spreadsheet: the output table, and for every
    row of the input the round that produced its output row. *)
Lemma output_row_of_round df w path name w' i row :
  accepted E filename bytes df →
  handle w = (FileResponse path name, w') →
  rows df !! i = Some row →
  ∃ df_out row' st1 st2,
    fs w' !! path = Some (Spreadsheet (output_format filename) df_out) ∧
    question_of row' = question_of row ∧
    (∀ c, row' !! c =
          if decide (c ∈ columns df) then row !! c
          else if decide (c ∈ evaluation_metrics ++ [extracted_text; extracted_url])
               then Some (Text EmptyString)
          else row !! c) ∧
    process_row E product version i row' st1 = (Ok tt, st2) ∧
    rows st1.1 !! i = Some row' ∧
    rows df_out !! i = rows st2.1 !! i.
Proof.
  intros Hdf Hrun Hi. rewrite (process_file_accepted df w Hdf) in Hrun.
  destruct (finish_file _ _ _ _ Hrun) as (df_out & w2 & Hloop & Hfs & _).
  destruct Hdf as (_ & _ & Hq).
  destruct (prepared_row df i row Hq Hi) as (row' & Hi' & Hq' & Hcells).
  destruct (loop_output_row _ _ _ _ _ _ Hloop Hi') as (st1 & st2 & ? & ? & ?).
  by exists df_out, row', st1, st2.
Qed.

Lemma set_at_sentinels df i row' t u :
  rows df !! i = Some row' →
  ∃ row_out,
    rows (set_at i "Extracted URL" (Text u)
            (set_at i "Extracted Text" (Text t) df)) !! i = Some row_out ∧
    row_out !! "Extracted Text" = Some (Text t) ∧
    row_out !! "Extracted URL" = Some (Text u).
Proof.
  intros Hi. unfold set_at. cbn [rows].
  rewrite !list_lookup_alter_eq, Hi. cbn [fmap option_fmap option_map].
  eexists. split_and!; [done| |].
  - rewrite lookup_insert_ne by done. apply lookup_insert_eq.
  - apply lookup_insert_eq.
Qed.


(** C6: the round of a row whose [Question] is missing or blank changes
    nothing: no call, no file, no cell.  In the output spreadsheet the row
    has the cells of the input row, and the empty text in the columns that
    the handler added, [Extracted Text] and [Extracted URL] among them. *)
Theorem blank_question_untouched df i row :
  accepted E filename bytes df →
  rows df !! i = Some row →
  is_blank (question_of row) = true →
  (∀ st, process_row E product version i row st = (Ok tt, st)) ∧
  (∀ w path name w',
     handle w = (FileResponse path name, w') →
     ∃ df_out row_out,
       fs w' !! path = Some (Spreadsheet (output_format filename) df_out) ∧
       rows df_out !! i = Some row_out ∧
       ∀ c, row_out !! c =
            if decide (c ∈ columns df) then row !! c
            else if decide (c ∈ evaluation_metrics ++ ["Extracted Text"; "Extracted URL"])
                 then Some (Text EmptyString)
            else row !! c).
Proof.
  intros Hdf Hi Hblank. split.
  - intros st. by apply process_row_blank.
  - intros w path name w' Hrun.
    destruct (output_row_of_round _ _ _ _ _ _ _ Hdf Hrun Hi)
      as (df_out & row' & st1 & st2 & Hfs & Hq' & Hcells & Hround & Hi1 & Hout).
    rewrite process_row_blank in Hround by congruence.
    injection Hround as <-.
    exists df_out, row'. by rewrite Hout.
Qed.

(** What a whole run of the loop leaves as it was. *)
Lemma loop_keeps_other_cells df0 w0 r df1 w1 :
  loop 0 (rows df0) (df0, w0) = (r, (df1, w1)) →
  columns df1 = columns df0 ∧
  length (rows df1) = length (rows df0) ∧
  ∀ j r0, rows df0 !! j = Some r0 →
    ∃ r', rows df1 !! j = Some r' ∧
      ∀ c, c ≠ extracted_text → c ≠ extracted_url → r' !! c = r0 !! c.
Proof.
  intros Hloop.
  pose proof (iterrows_loop_preserves E product version (rows df0) 0 (df0, w0))
    as Hframe.
  rewrite Hloop in Hframe. by destruct Hframe as (? & ? & _ & ? & _).
Qed.

Lemma metrics_not_derived m :
  m ∈ evaluation_metrics → m ≠ extracted_text ∧ m ≠ extracted_url.
Proof.
  revert m. apply Forall_forall. unfold evaluation_metrics.
  repeat (apply Forall_cons; split; [by split|]). apply Forall_nil_2.
Qed.

(** C9: the output table of an accepted upload has the ten evaluation
    columns and as many rows as the input; in every row, an evaluation
    column of the input keeps its value, and one that the input did not
    have holds the empty text. *)
Theorem evaluation_columns_in_output df w path name w' :
  accepted E filename bytes df →
  handle w = (FileResponse path name, w') →
  ∃ df_out,
    fs w' !! path = Some (Spreadsheet (output_format filename) df_out) ∧
    (∀ m, m ∈ evaluation_metrics → m ∈ columns df_out) ∧
    length (rows df_out) = length (rows df) ∧
    ∀ i row_out, rows df_out !! i = Some row_out →
      ∃ row_in, rows df !! i = Some row_in ∧
        ∀ m, m ∈ evaluation_metrics →
          row_out !! m =
          if decide (m ∈ columns df) then row_in !! m
          else Some (Text EmptyString).
Proof.
  intros Hdf Hrun. rewrite (process_file_accepted df w Hdf) in Hrun.
  destruct (finish_file _ _ _ _ Hrun) as (df_out & w2 & Hloop & Hfs & _).
  destruct (loop_keeps_other_cells _ _ _ _ _ Hloop) as (Hcols & Hlen & Hrows).
  destruct (prepare_spec df) as (g & Hg & Hgcols & Hgcells).
  exists df_out. split_and!; [done| | |].
  - intros m Hm. rewrite Hcols. apply Hgcols. right.
    apply elem_of_app. by left.
  - by rewrite Hlen, Hg, length_fmap.
  - intros i row_out Hi.
    destruct (rows df !! i) as [row_in|] eqn:Hin.
    + exists row_in. split; [done|]. intros m Hm.
      destruct (Hrows i (g row_in)) as (r' & Hr' & Hsame).
      { by rewrite Hg, list_lookup_fmap, Hin. }
      rewrite Hi in Hr'. injection Hr' as <-.
      destruct (metrics_not_derived m Hm).
      rewrite Hsame, Hgcells by done.
      case_decide; [done|]. rewrite decide_True; [done|].
      apply elem_of_app. by left.
    + apply lookup_ge_None in Hin. apply lookup_lt_Some in Hi.
      rewrite Hlen, Hg, length_fmap in Hi. lia.
Qed.

(** *** Failed calls do not stop the batch *)




End Requests.

(** C4 (as the code has it): the working file of a request is
    [output/<filename>], named by the file name of the upload alone (no
    time stamp, no sanitising); it is the first file every request opens,
    so two requests that upload under the same file name, whenever and
    with whatever content, write the same working file. *)
Theorem working_file_named_by_upload
    E1 E2 product1 product2 version1 version2 filename bytes1 bytes2 w1 w2 :
  input_filepath filename = "output/" +:+ filename ∧
  ∃ later1 later2,
    opened (process_file E1 product1 version1 filename bytes1 w1).2
    = opened w1 ++ input_filepath filename :: later1 ∧
    opened (process_file E2 product2 version2 filename bytes2 w2).2
    = opened w2 ++ input_filepath filename :: later2.
Proof.
  split; [done|].
  destruct (process_file_opens E1 product1 version1 filename bytes1 w1) as [l1 H1].
  destruct (process_file_opens E2 product2 version2 filename bytes2 w2) as [l2 H2].
  by exists l1, l2.
Qed.

(** ** The statements on concrete requests *)

Lemma accepted_csv E bytes df :
  read_csv E (Uploaded bytes) = Ok df → "Question" ∈ columns df →
  accepted E "in.csv" bytes df.
Proof. intros Hp Hq. split_and!; [by right|exact Hp|exact Hq]. Qed.





(** C4 (as stated) fails: two requests made at different times, with
    different contents and form fields, both named [q.csv], write the same
    working file [output/q.csv]; the second write replaces the bytes of
    the first. *)
Lemma working_file_shared_by_requests :
  clock empty_world ≠ clock first_upload.2 ∧
  input_filepath "q.csv" = "output/q.csv" ∧
  opened first_upload.2
  = ["output/q.csv"; "messages/q2_0.json"; "output/processed_2.csv"] ∧
  opened second_upload.2
  = opened first_upload.2 ++
    ["output/q.csv"; "messages/What_is_X__3.json"; "messages/How_to_Y__5.json";
     "output/processed_7.csv"] ∧
  fs first_upload.2 !! "output/q.csv" = Some (Uploaded [Byte.x31]) ∧
  fs second_upload.2 !! "output/q.csv" = Some (Uploaded [Byte.x32]).
Proof. split_and!; vm_compute; (reflexivity || discriminate). Qed.

Lemma run_as_pair (r : http_result * world) path name :
  r.1 = FileResponse path name → r = (FileResponse path name, r.2).
Proof. destruct r as [res w]. cbn [fst snd]. by intros ->. Qed.



Lemma blank_question_untouched_witness :
  ∃ df_out row_out,
    fs (process_file answering_env "p" "v" "in.csv" [] empty_world).2
      !! "output/processed_4.csv"
    = Some (Spreadsheet (output_format "in.csv") df_out) ∧
    rows df_out !! 1 = Some row_out ∧
    ∀ c, row_out !! c =
         if decide (c ∈ columns three_rows)
         then mk_row [("Question", Text " "); ("Accuracy", Missing)] !! c
         else if decide (c ∈ evaluation_metrics ++ ["Extracted Text"; "Extracted URL"])
              then Some (Text EmptyString)
         else mk_row [("Question", Text " "); ("Accuracy", Missing)] !! c.
Proof.
  destruct (blank_question_untouched answering_env "p" "v" "in.csv" []
              three_rows 1 (mk_row [("Question", Text " "); ("Accuracy", Missing)]))
    as [_ Hout].
  - apply accepted_csv; [reflexivity|]. apply elem_of_cons. by left.
  - reflexivity.
  - vm_compute. reflexivity.
  - apply (Hout empty_world "output/processed_4.csv" "processed_4.csv").
    apply run_as_pair. vm_compute. reflexivity.
Defined.

Lemma evaluation_columns_in_output_witness :
  ∃ df_out,
    fs (process_file answering_env "p" "v" "in.csv" [] empty_world).2
      !! "output/processed_4.csv"
    = Some (Spreadsheet (output_format "in.csv") df_out) ∧
    (∀ m, m ∈ evaluation_metrics → m ∈ columns df_out) ∧
    length (rows df_out) = length (rows three_rows) ∧
    ∀ i row_out, rows df_out !! i = Some row_out →
      ∃ row_in, rows three_rows !! i = Some row_in ∧
        ∀ m, m ∈ evaluation_metrics →
          row_out !! m =
          if decide (m ∈ columns three_rows) then row_in !! m
          else Some (Text EmptyString).
Proof.
  apply (evaluation_columns_in_output answering_env "p" "v" "in.csv" []
           three_rows empty_world "output/processed_4.csv" "processed_4.csv").
  - apply accepted_csv; [reflexivity|]. apply elem_of_cons. by left.
  - apply run_as_pair. vm_compute. reflexivity.
Defined.

Lemma non_text_question_fails_request_witness :
  ∃ msg artifacts made,
    process_file numeric_env "p" "v" "in.csv" [] empty_world
    = (ErrorJson msg, (process_file numeric_env "p" "v" "in.csv" [] empty_world).2) ∧
    opened (process_file numeric_env "p" "v" "in.csv" [] empty_world).2
    = opened empty_world ++ ("output/" +:+ "in.csv") :: artifacts ∧
    (∀ p, p ∈ artifacts → is_Some (strip_prefix "messages/" p)) ∧
    no_sheet_written (fs empty_world)
      (fs (process_file numeric_env "p" "v" "in.csv" [] empty_world).2) ∧
    calls (process_file numeric_env "p" "v" "in.csv" [] empty_world).2
    = calls empty_world ++ made ∧
    (∀ x, x ∈ made → x.1 < 1).
Proof.
  apply (non_text_question_fails_request numeric_env "p" "v" "in.csv" []
           numeric_question 1 (mk_row [("Question", Number 42)])).
  - apply accepted_csv; [reflexivity|].
    apply list_elem_of_singleton. reflexivity.
  - reflexivity.
  - vm_compute. reflexivity.
Defined.

(** * Further properties *)

(** ** The anchors that the extractor returns *)

Lemma append_assoc a b c : (a +:+ b) +:+ c = a +:+ b +:+ c.
Proof. induction a; simpl_append; congruence. Qed.

Lemma append_empty_r a : a +:+ EmptyString = a.
Proof. induction a; simpl_append; congruence. Qed.

Lemma span_unquoted_spec s u r :
  span_unquoted s = (u, r) →
  unquoted u = true ∧
  (r = EmptyString ∨ ∃ q r', r = String q r' ∧ is_quote q = true).
Proof.
  revert u. induction s as [|c s IH]; intros u; simpl.
  - intros [= <- <-]. auto.
  - destruct (is_quote c) eqn:Hc.
    + intros [= <- <-]. split; [done|]. right. by exists c, s.
    + destruct (span_unquoted s) as [u0 r0]. intros [= <- <-].
      destruct (IH u0 eq_refl) as [Hu Hr]. split; [|done].
      unfold unquoted in *. simpl. by rewrite Hc, Hu.
Qed.

Lemma match_anchor_spec s u rest :
  match_anchor s = Some (u, rest) →
  ∃ q q', s = "<a href=" +:+ String q (u +:+ String q' rest) ∧
          is_quote q = true ∧ is_quote q' = true ∧
          u ≠ EmptyString ∧ unquoted u = true.
Proof.
  unfold match_anchor.
  destruct (strip_prefix _ s) as [[|q r]|] eqn:Hp; try discriminate.
  apply strip_prefix_Some in Hp as ->.
  destruct (is_quote q) eqn:Hq; [|discriminate].
  destruct (span_unquoted r) as [[|c u0] [|q' r']] eqn:Hs; try discriminate.
  intros [= <- <-].
  destruct (span_unquoted_spec _ _ _ Hs) as [Hu [|(q0 & r0 & [= <- <-] & Hq')]];
    [done|].
  apply span_unquoted_app in Hs as ->. by exists q, q'.
Qed.

Lemma search_anchor_spec s u rest :
  search_anchor s = Some (u, rest) →
  ∃ a q q', s = a +:+ "<a href=" +:+ String q (u +:+ String q' rest) ∧
            is_quote q = true ∧ is_quote q' = true ∧
            u ≠ EmptyString ∧ unquoted u = true.
Proof.
  induction s as [|c s IH]; rewrite search_anchor_eq;
    destruct (match_anchor _) as [[u0 r0]|] eqn:Hm; try discriminate.
  - intros [= <- <-]. apply match_anchor_spec in Hm as (q & q' & ? & ?).
    by exists EmptyString, q, q'.
  - intros (a & q & q' & -> & ?)%IH. by exists (String c a), q, q'.
Qed.

Lemma findall_fuel_sound n s u :
  u ∈ findall_fuel n s →
  ∃ a q q' b, s = a +:+ "<a href=" +:+ String q (u +:+ String q' b) ∧
              is_quote q = true ∧ is_quote q' = true ∧
              u ≠ EmptyString ∧ unquoted u = true.
Proof.
  revert s. induction n as [|n IH]; intros s; simpl; [by intros ?%elem_of_nil|].
  destruct (search_anchor s) as [[u0 rest]|] eqn:Hs; [|by intros ?%elem_of_nil].
  apply search_anchor_spec in Hs as (a & q & q' & -> & Hq & Hq' & Hu).
  intros [->|Hin]%elem_of_cons.
  - by exists a, q, q', rest.
  - apply IH in Hin as (a' & q1 & q1' & b & -> & ?).
    exists (a +:+ "<a href=" +:+ String q (u0 +:+ String q' a')), q1, q1', b.
    split; [|done].
    rewrite !append_assoc. simpl_append. by rewrite !append_assoc.
Qed.

Lemma extract_urls_from_section s u :
  u ∈ extract_urls_from_response s →
  ∃ pre section post,
    s = pre +:+ marker +:+ section +:+ post ∧ u ∈ findall_urls section.
Proof.
  destruct (str_partition marker s) as [[pre rest]|] eqn:Hp.
  - rewrite (extract_urls_section _ _ _ Hp), elem_of_list_of_set.
    apply str_partition_Some in Hp as ->.
    destruct (str_partition marker rest) as [[mid post]|] eqn:Hr.
    + apply str_partition_Some in Hr as ->. intros Hu.
      by exists pre, mid, (marker +:+ post).
    + intros Hu. exists pre, rest, EmptyString. split; [|done].
      by rewrite append_empty_r.
  - unfold extract_urls_from_response.
    rewrite (str_split_unfold _ s marker_nonempty), Hp. by intros ?%elem_of_nil.
Qed.

(** X1: every URL that the extractor returns is non-empty and holds no
    quote character, double or single. *)
Theorem extract_urls_nonempty_unquoted s :
  Forall (λ u, u ≠ EmptyString ∧ unquoted u = true)
         (extract_urls_from_response s).
Proof.
  apply Forall_forall. intros u Hu.
  apply extract_urls_from_section in Hu as (pre & section & post & _ & Hu).
  apply findall_fuel_sound in Hu as (a & q & q' & b & _ & _ & _ & ? & ?).
  done.
Qed.

(** X2: every URL that the extractor returns stands in the response text
    after an occurrence of the marker, right behind the text [<a href=]
    and a quote character, and is followed by a quote character; the two
    quote characters need not be the same. *)
Theorem extract_urls_from_anchors s :
  Forall (λ u, ∃ pre a q q' b,
            s = pre +:+ marker +:+ a +:+ "<a href=" +:+
                String q (u +:+ String q' b) ∧
            is_quote q = true ∧ is_quote q' = true)
         (extract_urls_from_response s).
Proof.
  apply Forall_forall. intros u Hu.
  apply extract_urls_from_section in Hu as (pre & section & post & -> & Hu).
  apply findall_fuel_sound in Hu as (a & q & q' & b & -> & ? & ? & _).
  exists pre, a, q, q', (b +:+ post). split; [|done].
  rewrite !append_assoc. simpl_append. by rewrite !append_assoc.
Qed.

(** X3: when the marker occurs exactly once, the extractor returns exactly
    the href values captured in the text after it; anchors before the
    marker are not looked at. *)
Theorem extract_urls_single_marker s pre rest :
  leftmost marker s pre rest →
  (∀ a b, rest ≠ a +:+ marker +:+ b) →
  ∀ u, u ∈ extract_urls_from_response s ↔ u ∈ findall_urls rest.
Proof.
  intros Hs%str_partition_leftmost Hrest u.
  rewrite (extract_urls_section _ _ _ Hs), elem_of_list_of_set.
  destruct (str_partition marker rest) as [[mid post]|] eqn:Hr; [|done].
  by destruct (Hrest mid post); apply str_partition_Some.
Qed.

Lemma extract_urls_single_marker_witness :
  "http://b.com" ∈ extract_urls_from_response
    "<a href='http://a.com'>a</a> Relevant URLs: <a href='http://b.com'>b</a>"
  ↔ "http://b.com" ∈ findall_urls " <a href='http://b.com'>b</a>".
Proof.
  apply (extract_urls_single_marker _ "<a href='http://a.com'>a</a> ").
  - apply str_partition_leftmost. reflexivity.
  - apply str_partition_None. reflexivity.
Defined.

Lemma span_unquoted_run u q r :
  unquoted u = true → is_quote q = true →
  span_unquoted (u +:+ String q r) = (u, String q r).
Proof.
  intros Hu Hq. induction u as [|c u IH]; simpl_append; simpl.
  - by rewrite Hq.
  - unfold unquoted in Hu. simpl in Hu.
    apply andb_prop in Hu as [Hc%negb_true_iff Hu]. by rewrite Hc, IH.
Qed.

(** X4: an anchor at the start of the scanned text is captured whenever its
    href value is non-empty and quote-free, also when it opens with one
    kind of quote and closes with the other; the scan goes on behind the
    closing quote. *)
Theorem findall_urls_anchor q q' u b :
  is_quote q = true → is_quote q' = true →
  u ≠ EmptyString → unquoted u = true →
  findall_urls ("<a href=" +:+ String q (u +:+ String q' b))
  = u :: findall_urls b.
Proof.
  intros Hq Hq' Hne Hu. rewrite findall_urls_unfold, search_anchor_eq.
  unfold match_anchor.
  rewrite (proj2 (strip_prefix_Some "<a href=" _ (String q (u +:+ String q' b))))
    by done.
  rewrite Hq, span_unquoted_run by done. by destruct u.
Qed.

Lemma findall_urls_anchor_witness :
  findall_urls ("<a href=" +:+ String "034"%char ("http://a.com" +:+ String "'"%char ">a</a>"))
  = "http://a.com" :: findall_urls ">a</a>".
Proof.
  apply findall_urls_anchor; try reflexivity. discriminate.
Defined.

(** ** The artifact writer *)

Lemma take_str_length n s :
  String.length (take_str n s) = n `min` String.length s.
Proof.
  revert s. induction n as [|n IH]; intros [|c s]; simpl; try done.
  by rewrite IH.
Qed.

Lemma all_chars_take test n s :
  all_chars test s = true → all_chars test (take_str n s) = true.
Proof.
  revert s. induction n as [|n IH]; intros [|c s]; simpl; try done.
  intros [-> Hs]%andb_prop. simpl. by apply IH.
Qed.

Lemma map_str_length f s : String.length (map_str f s) = String.length s.
Proof. induction s; simpl; congruence. Qed.

(** X5: the sanitised prefix of an artifact name has the length of the
    question, at most 30, and holds only alphanumeric characters and
    underscores: no slash, no dot, whatever the question. *)
Theorem sanitize_safe question :
  String.length (sanitize question) = 30 `min` String.length question ∧
  all_chars (λ c, isalnum c || Ascii.eqb c "_"%char) (sanitize question) = true.
Proof.
  unfold sanitize. split.
  - by rewrite take_str_length, map_str_length.
  - apply all_chars_take.
    induction question as [|c s IH]; cbn [all_chars map_str]; [done|].
    rewrite IH, andb_true_r. destruct (isalnum c) eqn:Hc.
    + by rewrite Hc.
    + by rewrite Ascii.eqb_refl, orb_true_r.
Qed.

(** X6: two responses saved one after the other while the clock shows the
    same second, for questions with the same sanitised prefix, go to the
    same path: the second artifact replaces the first. *)
Theorem save_message_collision E members1 members2 q1 q2 p1 p2 v1 v2 w :
  sanitize q1 = sanitize q2 →
  now_strftime E (clock w) "%Y%m%d_%H%M%S"
  = now_strftime E (S (S (clock w))) "%Y%m%d_%H%M%S" →
  ∃ path w1 w2,
    save_message_to_file E (JObject members1) q1 p1 v1 w = (Ok path, w1) ∧
    save_message_to_file E (JObject members2) q2 p2 v2 w1 = (Ok path, w2) ∧
    fs w1 !! path
    = Some (JsonFile (artifact_doc E (JObject members1) (message_text members1)
                        q1 p1 v1 (S (clock w)))) ∧
    fs w2 !! path
    = Some (JsonFile (artifact_doc E (JObject members2) (message_text members2)
                        q2 p2 v2 (S (S (S (clock w)))))).
Proof.
  intros Hq Hstamp. rewrite !save_message_object. eexists _, _, _.
  split_and!; [done| | |].
  - rewrite save_message_object. cbn [clock tick record_write].
    unfold artifact_path. by rewrite Hq, Hstamp.
  - cbn [fs record_write]. apply lookup_insert_eq.
  - cbn [fs clock tick record_write]. unfold artifact_path.
    rewrite Hq, Hstamp. apply lookup_insert_eq.
Qed.

Lemma save_message_collision_witness :
  ∃ path w1 w2,
    save_message_to_file frozen_env (JObject [("message", JString "one")])
      "a?" "p" "v" empty_world = (Ok path, w1) ∧
    save_message_to_file frozen_env (JObject [("message", JString "two")])
      "a!" "p" "v" w1 = (Ok path, w2) ∧
    fs w1 !! path
    = Some (JsonFile (artifact_doc frozen_env (JObject [("message", JString "one")])
                        (message_text [("message", JString "one")])
                        "a?" "p" "v" (S (clock empty_world)))) ∧
    fs w2 !! path
    = Some (JsonFile (artifact_doc frozen_env (JObject [("message", JString "two")])
                        (message_text [("message", JString "two")])
                        "a!" "p" "v" (S (S (S (clock empty_world)))))).
Proof.
  apply save_message_collision; reflexivity.
Defined.

(** ** More on the rows *)

Section MoreRows.

Variable E : Env.
Variables product version : string.
Variable filename : string.
Variable bytes : list Byte.byte.

Abbreviation payloadR := (payload_of product version).
Abbreviation askR := (ask E product version).
Abbreviation roundR := (process_row E product version).
Abbreviation loopR := (iterrows_loop E product version).
Abbreviation handleR := (process_file E product version filename bytes).
Abbreviation uploadedR w :=
  (record_write (input_filepath filename) (Uploaded bytes) w).

(** X7: a row answered with status 200 and an object whose [message] is
    the text [m] (or has no [message], then [m] is empty) gets [m] in
    [Extracted Text] and, in [Extracted URL], the extracted URLs, each
    once and in some order, joined by newlines, or [No URL found] when
    there is none; its round writes one artifact, named after the question
    and the clock, that holds the whole response.  This is what the round
    does when the derived columns can hold a text, and the two cells are
    those of the row in every output spreadsheet that the handler
    returns. *)
Theorem ok_reply_recorded df i row q r members m :
  accepted E filename bytes df →
  rows df !! i = Some row →
  asked (question_of row) = Some q →
  requests_post E i (payloadR q) = Ok r →
  status_code r = 200%Z →
  json_result r = Ok (JObject members) →
  message_text members = JString m →
  (∀ st, text_ready st.1 →
     ∃ urls,
       urls ≡ₚ extract_urls_from_response m ∧
       roundR i row st =
       (Ok tt,
        (set_at i "Extracted URL" (Text (url_cell urls))
           (set_at i "Extracted Text" (Text m) st.1),
         record_write (artifact_path E q (clock st.2))
           (JsonFile (artifact_doc E (JObject members) (JString m) q
                        product version (S (clock st.2))))
           (tick (tick (record_call i (payloadR q) st.2)))))) ∧
  (∀ w path name w',
     handleR w = (FileResponse path name, w') →
     ∃ df_out row_out urls,
       fs w' !! path = Some (Spreadsheet (output_format filename) df_out) ∧
       rows df_out !! i = Some row_out ∧
       row_out !! "Extracted Text" = Some (Text m) ∧
       urls ≡ₚ extract_urls_from_response m ∧
       row_out !! "Extracted URL" = Some (Text (url_cell urls))).
Proof.
  intros Hdf Hi Hq Hreply Hstatus Hjson Hm. split.
  - intros st Hst. exists (extract_urls_from_response m). split; [done|].
    rewrite (process_row_asked _ _ _ _ _ q) by done.
    by apply (ask_ok_reply E product version i q st r members m).
  - intros w path name w' Hrun.
    destruct (output_row_of_round _ _ _ _ _ _ _ _ _ _ _ _ Hdf Hrun Hi)
      as (df_out & row' & st1 & st2 & Hfs & Hq' & _ & Hround & Hi1 & Hout).
    rewrite (process_row_asked _ _ _ _ _ q) in Hround by congruence.
    rewrite (ask_ok_cells _ _ _ _ _ _ r members m) in Hround by done.
    destruct (set_cells i m _ _) as [[[]|e] st3] eqn:Hcells; [|done].
    apply set_cells_inv in Hcells as ->. injection Hround as <-.
    destruct (set_at_sentinels st1.1 i row' m
                (url_cell (extract_urls_from_response m)) Hi1)
      as (row_out & Hrow & ? & ?).
    exists df_out, row_out, (extract_urls_from_response m).
    cbn [fst] in Hout. by rewrite Hout.
Qed.

(** X8: a row whose call raises a [RequestException], or whose reply has
    status 200 and a body whose decoding raises one, gets [Error: API
    request failed] and [No URL found], and its round writes no file, when
    the derived columns can hold a text.  The two cells are those of the
    row in every output spreadsheet that the handler returns. *)
Theorem request_exception_recorded df i row q d :
  accepted E filename bytes df →
  rows df !! i = Some row →
  asked (question_of row) = Some q →
  requests_post E i (payloadR q) = Raise (RequestException d) ∨
  (∃ r, requests_post E i (payloadR q) = Ok r ∧ status_code r = 200%Z ∧
        json_result r = Raise (RequestException d)) →
  (∀ st, text_ready st.1 →
         roundR i row st =
         (Ok tt,
          (set_at i "Extracted URL" (Text "No URL found")
             (set_at i "Extracted Text" (Text "Error: API request failed") st.1),
           record_call i (payloadR q) st.2))) ∧
  (∀ w path name w',
     handleR w = (FileResponse path name, w') →
     ∃ df_out row_out,
       fs w' !! path = Some (Spreadsheet (output_format filename) df_out) ∧
       rows df_out !! i = Some row_out ∧
       row_out !! "Extracted Text" = Some (Text "Error: API request failed") ∧
       row_out !! "Extracted URL" = Some (Text "No URL found")).
Proof.
  intros Hdf Hi Hq Hreply.
  assert (∀ st, askR i q st =
                set_cells i "Error: API request failed" "No URL found"
                  (st.1, record_call i (payloadR q) st.2)) as Hask.
  { intros st. destruct Hreply as [Hr|(r & Hr & Hs & Hj)].
    - by apply (ask_request_exception_cells E product version i q st d).
    - by apply (ask_decode_exception_cells E product version i q st r d). }
  split.
  - intros st Hst. rewrite (process_row_asked _ _ _ _ _ q) by done.
    rewrite Hask. by apply set_cells_ok.
  - intros w path name w' Hrun.
    destruct (output_row_of_round _ _ _ _ _ _ _ _ _ _ _ _ Hdf Hrun Hi)
      as (df_out & row' & st1 & st2 & Hfs & Hq' & _ & Hround & Hi1 & Hout).
    rewrite (process_row_asked _ _ _ _ _ q) in Hround by congruence.
    rewrite Hask in Hround. apply set_cells_inv in Hround as ->.
    destruct (set_at_sentinels st1.1 i row'
                "Error: API request failed" "No URL found" Hi1)
      as (row_out & Hrow & ? & ?).
    exists df_out, row_out. cbn [fst] in Hout. by rewrite Hout.
Qed.

(** *** One call per question *)

Lemma ask_calls i q st :
  calls (askR i q st).2.2 = calls st.2 ++ [(i, payloadR q)].
Proof.
  destruct st as [df w].
  unfold ask, try_except, post, lift, df_at_set, invalid_value, lift_result,
    mbind, M_bind.
  cbn [fst snd].
  destruct (requests_post E i _) as [r|e];
    [|destruct (is_request_exception e); [|done]].
  2: by repeat (destruct (refuses _ _ _); cbn [fst snd is_request_exception]).
  case_decide.
  2: by repeat (destruct (refuses _ _ _); cbn [fst snd is_request_exception]).
  destruct (json_result r) as [j|e];
    [|destruct (is_request_exception e); [|done]].
  2: by repeat (destruct (refuses _ _ _); cbn [fst snd is_request_exception]).
  destruct j as [| | | | |members]; try done.
  cbn [json_get]. fold (message_text members).
  destruct (message_text members); try done. cbn [extract_urls].
  by repeat (destruct (refuses _ _ _); cbn [fst snd is_request_exception]).
Qed.

Lemma process_row_calls i row st :
  calls (roundR i row st).2.2 =
  calls st.2 ++ match asked (question_of row) with
                | Some q => [(i, payloadR q)]
                | None => []
                end.
Proof.
  unfold process_row, asked.
  destruct (question_of row) as [|q| |]; cbn [raise mret M_ret snd];
    rewrite ?app_nil_r; try done.
  destruct (str_truthy _); [apply ask_calls|by rewrite app_nil_r].
Qed.

Lemma iterrows_loop_calls rows0 k st :
  ∃ made, calls (loopR k rows0 st).2.2 = calls st.2 ++ made ∧
          made `prefix_of` questions_asked product version k rows0.
Proof.
  revert k st. induction rows0 as [|row rest IH]; intros k st.
  - exists []. split; [by rewrite app_nil_r|done].
  - cbn [iterrows_loop questions_asked]. unfold mbind, M_bind.
    pose proof (process_row_calls k row st) as Hrow.
    destruct (roundR k row st) as [[[]|e] st1]; cbn [snd] in Hrow.
    + destruct (IH (S k) st1) as (made & Hmade & Hprefix).
      eexists. rewrite Hmade, Hrow, <- (assoc_L (++)). split; [done|].
      by apply prefix_app.
    + eexists. split; [exact Hrow|]. by apply prefix_app_r.
Qed.

(** X9: whatever the replies and however the request ends, the calls it
    makes are the questions of the table in row order, one call per
    non-blank text question and none repeated, up to the row where the
    request stops. *)
Theorem calls_in_row_order df w :
  accepted E filename bytes df →
  ∃ made, calls (handleR w).2 = calls w ++ made ∧
          made `prefix_of` questions_asked product version 0 (rows df).
Proof.
  intros Hdf. rewrite (process_file_accepted _ _ _ _ _ df w Hdf).
  destruct Hdf as (_ & _ & Hquestion).
  destruct (prepare_spec df) as (g & Hg & _ & Hcells).
  destruct (iterrows_loop_calls (rows (prepare df)) 0 (prepare df, uploadedR w))
    as (made & Hmade & Hprefix).
  exists made. split.
  - destruct (iterrows_loop _ _ _ _ _ _) as [[[]|e] [df' w']];
      cbn [finish snd calls record_write tick] in *; done.
  - rewrite Hg, questions_asked_fmap in Hprefix; [done|].
    intros r. unfold question_of. by rewrite Hcells, decide_True.
Qed.

(** *** Tables without questions *)

Lemma iterrows_loop_blank rows0 k st :
  Forall (λ row, is_blank (question_of row) = true) rows0 →
  loopR k rows0 st = (Ok tt, st).
Proof.
  intros Hrows. revert k. induction Hrows as [|row rest Hrow _ IH]; intros k.
  - done.
  - cbn [iterrows_loop]. unfold mbind, M_bind.
    by rewrite process_row_blank.
Qed.

(** X10: when every [Question] cell of an accepted table is missing or
    blank (an empty table included), the handler makes no call and writes
    no artifact: it saves the upload, reads the clock once and writes the
    table with the added columns as the output spreadsheet. *)
Theorem blank_table_passes_through df w :
  accepted E filename bytes df →
  Forall (λ row, is_blank (question_of row) = true) (rows df) →
  handleR w =
  (FileResponse ("output/" +:+ output_filename_at E filename (uploadedR w))
     (output_filename_at E filename (uploadedR w)),
   record_write ("output/" +:+ output_filename_at E filename (uploadedR w))
     (Spreadsheet (output_format filename) (prepare df))
     (tick (uploadedR w))).
Proof.
  intros Hdf Hrows. rewrite (process_file_accepted _ _ _ _ _ df w Hdf).
  destruct Hdf as (_ & _ & Hquestion).
  destruct (prepare_spec df) as (g & Hg & _ & Hcells).
  rewrite iterrows_loop_blank; [done|].
  rewrite Hg. apply Forall_fmap. eapply Forall_impl; [exact Hrows|].
  intros row Hrow. cbn. unfold question_of in *. by rewrite Hcells, decide_True.
Qed.

(** *** The cells of the input *)

(** X11: in the output spreadsheet every row keeps every cell of its input
    row outside [Extracted Text] and [Extracted URL]: the loop never
    changes a question, an evaluation or any other column of the upload. *)
Theorem input_cells_kept df w path name w' :
  accepted E filename bytes df →
  handleR w = (FileResponse path name, w') →
  ∃ df_out,
    fs w' !! path = Some (Spreadsheet (output_format filename) df_out) ∧
    ∀ i row_in, rows df !! i = Some row_in →
      ∃ row_out, rows df_out !! i = Some row_out ∧
        ∀ c, c ∈ columns df →
             c ≠ "Extracted Text" → c ≠ "Extracted URL" →
             row_out !! c = row_in !! c.
Proof.
  intros Hdf Hrun. rewrite (process_file_accepted _ _ _ _ _ df w Hdf) in Hrun.
  destruct (finish_file _ _ _ _ _ _ Hrun) as (df_out & w2 & Hloop & Hfs & _).
  destruct (loop_keeps_other_cells _ _ _ _ _ _ _ _ Hloop) as (_ & _ & Hrows).
  destruct (prepare_spec df) as (g & Hg & _ & Hcells).
  exists df_out. split; [done|]. intros i row_in Hi.
  destruct (Hrows i (g row_in)) as (row_out & Hout & Hsame).
  { by rewrite Hg, list_lookup_fmap, Hi. }
  exists row_out. split; [done|]. intros c Hc ? ?.
  by rewrite Hsame, Hcells, decide_True.
Qed.

End MoreRows.

(** ** The columns of the output *)

Lemma filter_absent_snoc (cols : list string) a (l : list string) :
  a ∉ l →
  filter (λ c, c ∉ cols ++ [a]) l = filter (λ c, c ∉ cols) l.
Proof.
  induction l as [|x l IH]; [done|].
  intros [Hx Hl]%not_elem_of_cons. rewrite !filter_cons, IH by done.
  destruct (decide (x ∉ cols)) as [Hc|Hc].
  - rewrite decide_True; [done|].
    intros [?|?%list_elem_of_singleton]%elem_of_app; congruence.
  - rewrite decide_False; [done|].
    intros Hn. apply Hc. intros ?. apply Hn, elem_of_app. by left.
Qed.

Lemma foldl_ensure_columns (l : list string) df :
  NoDup l →
  columns (foldl ensure_column df l)
  = columns df ++ filter (λ c, c ∉ columns df) l.
Proof.
  intros Hl. revert df. induction Hl as [|a l Ha Hl IH]; intros df.
  - by rewrite app_nil_r.
  - cbn [foldl]. rewrite IH. unfold ensure_column, add_column.
    destruct (decide (a ∈ columns df)) as [Hin|Hin].
    + by rewrite filter_cons_False by auto.
    + cbn [columns]. rewrite filter_cons_True by done.
      by rewrite filter_absent_snoc, <- (assoc_L (++)).
Qed.

Lemma derived_columns_nodup :
  NoDup (evaluation_metrics ++ [extracted_text; extracted_url]).
Proof. apply (bool_decide_unpack _). vm_compute. exact I. Qed.

Lemma prepare_foldl df :
  prepare df
  = foldl ensure_column df (evaluation_metrics ++ [extracted_text; extracted_url]).
Proof. symmetry. unfold prepare. by rewrite foldl_app. Qed.

(** X12: the output spreadsheet has the columns of the upload, in their
    order, followed by those of the ten evaluation columns, [Extracted
    Text] and [Extracted URL] that the upload did not have, in that fixed
    order. *)
Theorem output_columns_order E product version filename bytes df w path name w' :
  accepted E filename bytes df →
  process_file E product version filename bytes w = (FileResponse path name, w') →
  ∃ df_out,
    fs w' !! path = Some (Spreadsheet (output_format filename) df_out) ∧
    columns df_out
    = columns df ++
      filter (λ c, c ∉ columns df)
             (evaluation_metrics ++ ["Extracted Text"; "Extracted URL"]).
Proof.
  intros Hdf Hrun. rewrite (process_file_accepted _ _ _ _ _ df w Hdf) in Hrun.
  destruct (finish_file _ _ _ _ _ _ Hrun) as (df_out & w2 & Hloop & Hfs & _).
  destruct (loop_keeps_other_cells _ _ _ _ _ _ _ _ Hloop) as (Hcols & _).
  exists df_out. split; [done|].
  rewrite Hcols, prepare_foldl.
  apply foldl_ensure_columns, derived_columns_nodup.
Qed.

Lemma foldl_ensure_present l df :
  (∀ c, c ∈ l → c ∈ columns df) → foldl ensure_column df l = df.
Proof.
  induction l as [|a l IH]; intros Hl; [done|]. cbn [foldl].
  unfold ensure_column at 2. rewrite decide_True.
  - apply IH. intros c Hc. apply Hl. by right.
  - apply Hl. by left.
Qed.

(** X13: a table that already has the ten evaluation columns and the two
    derived columns is left as it is before the loop; so preparing a
    prepared table changes nothing. *)
Theorem prepare_idempotent df :
  ((∀ c, c ∈ evaluation_metrics ++ ["Extracted Text"; "Extracted URL"] →
         c ∈ columns df) →
   prepare df = df) ∧
  prepare (prepare df) = prepare df.
Proof.
  split.
  - intros Hcols. rewrite prepare_foldl. by apply foldl_ensure_present.
  - rewrite (prepare_foldl (prepare df)). apply foldl_ensure_present.
    intros c Hc. destruct (prepare_spec df) as (_ & _ & Hcols & _).
    apply Hcols. by right.
Qed.

Lemma prepare_idempotent_witness : prepare full_table = full_table.
Proof.
  apply (proj1 (prepare_idempotent full_table)).
  intros c Hc. apply elem_of_cons. right. exact Hc.
Defined.

(** ** Blank questions *)

Lemma lstrip_blank s : all_chars isspace s = true → lstrip s = EmptyString.
Proof.
  induction s as [|c s IH]; cbn [all_chars lstrip]; [done|].
  intros [-> Hs]%andb_prop. by apply IH.
Qed.

Lemma lstrip_not_blank s :
  all_chars isspace s = false →
  ∃ c r, lstrip s = String c r ∧ isspace c = false.
Proof.
  induction s as [|c s IH]; cbn [all_chars lstrip]; [done|].
  destruct (isspace c) eqn:Hc; [|by exists c, s].
  rewrite andb_true_l. apply IH.
Qed.

Lemma rstrip_not_blank c r :
  isspace c = false → str_truthy (rstrip (String c r)) = true.
Proof.
  intros Hc. cbn [rstrip]. destruct (rstrip r); [by rewrite Hc|done].
Qed.

(** X14: the test [question.strip()] of the loop fails, and the row is
    skipped, exactly when all the characters of the question are white
    space, the empty text included. *)
Theorem blank_is_all_whitespace q :
  str_truthy (strip q) = negb (all_chars isspace q) ∧
  is_blank (Text q) = all_chars isspace q.
Proof.
  assert (str_truthy (strip q) = negb (all_chars isspace q)) as Hstrip.
  { unfold strip. destruct (all_chars isspace q) eqn:Hq.
    - by rewrite lstrip_blank.
    - destruct (lstrip_not_blank _ Hq) as (c & r & -> & Hc).
      by rewrite rstrip_not_blank. }
  split; [done|]. cbn [is_blank]. by rewrite Hstrip, negb_involutive.
Qed.

(** ** Uploads that are not processed *)

(** X15: an upload with a supported extension that parses to a table
    without a [Question] column is answered with the error [The uploaded
    file must contain a 'Question' column.]; no row is processed: no call
    is made and nothing is written but the working copy of the upload. *)
Theorem missing_question_column_rejected E product version filename bytes df w :
  extension_of filename = ".xlsx" ∨ extension_of filename = ".csv" →
  parsed E filename bytes = Ok df →
  "Question" ∉ columns df →
  process_file E product version filename bytes w =
  (ErrorJson "The uploaded file must contain a 'Question' column.",
   record_write ("output/" +:+ filename) (Uploaded bytes) w).
Proof.
  intros Hext Hp Hq. unfold parsed in Hp.
  unfold process_file, process_file_body, process_table, read_file, write_file,
    lift_result, mbind, M_bind, mret, M_ret.
  destruct (decide (extension_of filename = ".xlsx")) as [Hx|Hx];
    [|rewrite decide_True by (by destruct Hext)];
    cbn [fs record_write]; rewrite lookup_insert_eq, Hp;
    by rewrite decide_True.
Qed.

Lemma missing_question_column_rejected_witness :
  process_file prompts_env "p" "v" "in.csv" [] empty_world =
  (ErrorJson "The uploaded file must contain a 'Question' column.",
   record_write ("output/" +:+ "in.csv") (Uploaded []) empty_world).
Proof.
  apply (missing_question_column_rejected prompts_env "p" "v" "in.csv" [] prompts).
  - by right.
  - reflexivity.
  - intros [=]%list_elem_of_singleton.
Defined.

(** X16: when the parser of the spreadsheet library raises on an upload
    with a supported extension, the handler answers with the text of that
    exception; no call is made and nothing is written but the working copy
    of the upload. *)
Theorem parser_failure_reported E product version filename bytes e w :
  extension_of filename = ".xlsx" ∨ extension_of filename = ".csv" →
  parsed E filename bytes = Raise e →
  process_file E product version filename bytes w =
  (ErrorJson (str_exn e),
   record_write ("output/" +:+ filename) (Uploaded bytes) w).
Proof.
  intros Hext Hp. unfold parsed in Hp.
  unfold process_file, process_file_body, process_table, read_file, write_file,
    lift_result, mbind, M_bind, mret, M_ret.
  destruct (decide (extension_of filename = ".xlsx")) as [Hx|Hx];
    [|rewrite decide_True by (by destruct Hext)];
    cbn [fs record_write]; by rewrite lookup_insert_eq, Hp.
Qed.

Lemma parser_failure_reported_witness :
  process_file broken_env "p" "v" "in.csv" [] empty_world =
  (ErrorJson (str_exn (OtherException "No columns to parse from file")),
   record_write ("output/" +:+ "in.csv") (Uploaded []) empty_world).
Proof.
  apply parser_failure_reported; [by right|reflexivity].
Defined.

(** ** The extension of the upload *)

Lemma all_chars_app test a b :
  all_chars test (a +:+ b) = all_chars test a && all_chars test b.
Proof.
  induction a as [|c a IH]; simpl_append; cbn [all_chars]; [done|].
  by rewrite IH, andb_assoc.
Qed.

Lemma rfind_from_absent i c s :
  all_chars (λ x, negb (Ascii.eqb x c)) s = true → rfind_from i c s = (-1)%Z.
Proof.
  revert i. induction s as [|a s IH]; intros i; cbn [all_chars rfind_from];
    [done|].
  intros [Ha%negb_true_iff Hs]%andb_prop. by rewrite IH, Ha.
Qed.

Lemma rfind_from_last i c a b :
  (0 ≤ i)%Z → all_chars (λ x, negb (Ascii.eqb x c)) b = true →
  rfind_from i c (a +:+ String c b) = (i + Z.of_nat (String.length a))%Z.
Proof.
  intros Hi Hb. revert i Hi. induction a as [|x a IH]; intros i Hi;
    simpl_append; cbn [rfind_from String.length].
  - rewrite rfind_from_absent, Ascii.eqb_refl by done. cbn. lia.
  - rewrite IH by lia.
    destruct (Z.leb_spec 0 (i + 1 + Z.of_nat (String.length a))); lia.
Qed.

Lemma take_str_app a b : take_str (String.length a) (a +:+ b) = a.
Proof.
  induction a; simpl_append; cbn [String.length take_str];
    [by destruct b|congruence].
Qed.

Lemma drop_str_app a b : drop_str (String.length a) (a +:+ b) = b.
Proof. induction a; simpl_append; cbn [String.length drop_str]; [by destruct b|done]. Qed.

Lemma not_all_dots stem :
  all_chars (λ c, Ascii.eqb c "."%char) stem = false →
  existsb (λ c, negb (Ascii.eqb c "."%char)) (list_ascii_of_string stem) = true.
Proof.
  induction stem as [|c s IH]; cbn [all_chars list_ascii_of_string existsb];
    [done|].
  destruct (Ascii.eqb c "."); [apply IH|done].
Qed.

Lemma lower_append a b : lower (a +:+ b) = lower a +:+ lower b.
Proof. induction a; simpl_append; cbn [lower]; simpl_append; congruence. Qed.

(** X17: for a file name [stem.e] without a slash, whose [stem] is not
    made of dots only and whose [e] holds no dot, the extension that the
    handler compares is the dot followed by [e] in lower case: the case of
    the extension of the upload does not matter. *)
Theorem extension_of_simple_name stem e :
  all_chars (λ c, negb (Ascii.eqb c "/"%char)) stem = true →
  all_chars (λ c, Ascii.eqb c "."%char) stem = false →
  all_chars (λ c, negb (Ascii.eqb c "/"%char)) e = true →
  all_chars (λ c, negb (Ascii.eqb c "."%char)) e = true →
  extension_of (stem +:+ "." +:+ e) = "." +:+ lower e.
Proof.
  intros Hstem Hdots Hslash Hnodot.
  unfold extension_of, splitext, rfind.
  rewrite (rfind_from_absent 0 "/")
    by (rewrite !all_chars_app, Hstem, Hslash; reflexivity).
  change ("." +:+ e) with (String "."%char e).
  rewrite rfind_from_last by done.
  destruct (Z.ltb_spec (-1) (0 + Z.of_nat (String.length stem))); [|lia].
  replace (Z.to_nat (-1 + 1)) with 0 by lia.
  replace (Z.to_nat (0 + Z.of_nat (String.length stem)))
    with (String.length stem) by lia.
  rewrite Nat.sub_0_r. cbn [drop_str].
  rewrite take_str_app, not_all_dots by done. cbn [snd].
  by rewrite drop_str_app.
Qed.

Lemma extension_of_simple_name_witness :
  extension_of ("REPORT" +:+ "." +:+ "XLSX") = "." +:+ lower "XLSX".
Proof. apply extension_of_simple_name; reflexivity. Defined.

(** ** Files are never removed *)

#[global] Instance files_kept_preorder : PreOrder files_kept.
Proof.
  split.
  - by intros w p.
  - intros w1 w2 w3 H12 H23 p Hp. by apply H23, H12.
Qed.

#[global] Instance files_kept_st_preorder : PreOrder files_kept_st.
Proof.
  split.
  - intros st. unfold files_kept_st. reflexivity.
  - intros st1 st2 st3. unfold files_kept_st. apply transitivity.
Qed.

Lemma record_write_kept path content w :
  files_kept w (record_write path content w).
Proof.
  intros p Hp. cbn [fs record_write]. apply lookup_insert_is_Some.
  destruct (decide (path = p)); auto.
Qed.

Lemma tick_kept w : files_kept w (tick w).
Proof. by intros p. Qed.

Lemma record_call_kept i q w : files_kept w (record_call i q w).
Proof. by intros p. Qed.

Lemma lift_kept {A} (m : M world A) :
  (∀ w, files_kept w (m w).2) → preserves files_kept_st (lift m).
Proof.
  intros Hm [df w]. unfold lift, files_kept_st. cbn [fst snd].
  specialize (Hm w). by destruct (m w).
Qed.

Lemma df_at_set_kept i c v : preserves files_kept_st (df_at_set i c v).
Proof.
  intros [df w]. unfold df_at_set, files_kept_st.
  destruct (refuses _ _ _); reflexivity.
Qed.

Lemma save_message_kept E response_json q product version w :
  files_kept w (save_message_to_file E response_json q product version w).2.
Proof.
  cbv [save_message_to_file now write_file lift_result mbind M_bind mret M_ret].
  destruct (json_get response_json _ _); cbn [snd].
  - etransitivity; [apply tick_kept|].
    etransitivity; [apply tick_kept|]. apply record_write_kept.
  - apply tick_kept.
Qed.

Lemma iterrows_loop_kept E product version rows0 k :
  preserves files_kept_st (iterrows_loop E product version k rows0).
Proof.
  assert (∀ i q, preserves files_kept_st (ask E product version i q)) as Hask.
  { intros i q. unfold ask.
    repeat first
      [ apply preserves_ret; apply _
      | apply preserves_lift_result; apply _
      | apply df_at_set_kept
      | apply lift_kept; intros w; apply record_call_kept
      | apply lift_kept; intros w; apply save_message_kept
      | apply preserves_bind; [apply _| |intros ?]
      | apply preserves_try_except; [apply _| |intros ?]
      | case_decide ]. }
  revert k. induction rows0 as [|row rest IH]; intros k; cbn [iterrows_loop].
  - apply preserves_ret, _.
  - apply preserves_bind; [apply _| |intros _; apply IH].
    unfold process_row. destruct (question_of row);
      [apply preserves_ret, _| |apply preserves_raise, _..].
    destruct (str_truthy _); [apply Hask|apply preserves_ret, _].
Qed.

(** X18: a request never removes a file: every path that holds a file
    before the request holds one after it, however the request ends (a
    file can be replaced, by an upload, an artifact or an output of the
    same name). *)
Theorem files_never_removed E product version filename bytes w :
  files_kept w (process_file E product version filename bytes w).2.
Proof.
  destruct (accepted_dec E filename bytes) as [[df Hdf]|Hno].
  - rewrite (process_file_accepted _ _ _ _ _ df w Hdf).
    pose proof (iterrows_loop_kept E product version (rows (prepare df)) 0
                  (prepare df,
                   record_write (input_filepath filename) (Uploaded bytes) w))
      as Hloop.
    unfold files_kept_st in Hloop. cbn [snd] in Hloop.
    etransitivity; [apply record_write_kept|].
    destruct (iterrows_loop _ _ _ _ _ _) as [[[]|e] [df' w']];
      cbn [finish snd] in *; [|done].
    etransitivity; [exact Hloop|].
    etransitivity; [apply tick_kept|]. apply record_write_kept.
  - destruct (process_file_not_accepted _ product version _ _ w Hno) as [msg ->].
    apply record_write_kept.
Qed.

(** ** Further statements on concrete requests *)

Lemma ok_reply_recorded_witness :
  length (extract_urls_from_response links_message) = 2 ∧
  ∃ df_out row_out urls,
    fs (process_file links_env "p" "v" "in.csv" [] empty_world).2
      !! "output/processed_6.csv"
    = Some (Spreadsheet (output_format "in.csv") df_out) ∧
    rows df_out !! 1 = Some row_out ∧
    row_out !! "Extracted Text" = Some (Text links_message) ∧
    urls ≡ₚ extract_urls_from_response links_message ∧
    row_out !! "Extracted URL" = Some (Text (url_cell urls)).
Proof.
  split; [vm_compute; reflexivity|].
  destruct (ok_reply_recorded links_env "p" "v" "in.csv" [] three_questions 1
              (mk_row [("Question", Text "q2")]) "q2"
              {| status_code := 200;
                 json_result := Ok (JObject [("message", JString links_message)]) |}
              [("message", JString links_message)] links_message)
    as [_ Hout].
  - apply accepted_csv; [reflexivity|].
    apply list_elem_of_singleton. reflexivity.
  - reflexivity.
  - vm_compute. reflexivity.
  - reflexivity.
  - reflexivity.
  - reflexivity.
  - reflexivity.
  - apply (Hout empty_world "output/processed_6.csv" "processed_6.csv").
    apply run_as_pair. vm_compute. reflexivity.
Defined.

Lemma request_exception_recorded_witness :
  ∃ df_out row_out,
    fs (process_file flaky_env "p" "v" "in.csv" [] empty_world).2
      !! "output/processed_2.csv"
    = Some (Spreadsheet (output_format "in.csv") df_out) ∧
    rows df_out !! 2 = Some row_out ∧
    row_out !! "Extracted Text" = Some (Text "Error: API request failed") ∧
    row_out !! "Extracted URL" = Some (Text "No URL found").
Proof.
  destruct (request_exception_recorded flaky_env "p" "v" "in.csv" []
              three_questions 2 (mk_row [("Question", Text "q3")]) "q3"
              "Read timed out")
    as [_ Hout].
  - apply accepted_csv; [reflexivity|].
    apply list_elem_of_singleton. reflexivity.
  - reflexivity.
  - vm_compute. reflexivity.
  - left. reflexivity.
  - apply (Hout empty_world "output/processed_2.csv" "processed_2.csv").
    apply run_as_pair. vm_compute. reflexivity.
Defined.

Lemma calls_in_row_order_witness :
  ∃ made,
    calls (process_file null_message_env "p" "v" "in.csv" [] empty_world).2
    = calls empty_world ++ made ∧
    made `prefix_of` questions_asked "p" "v" 0 (rows three_questions).
Proof.
  apply calls_in_row_order.
  apply accepted_csv; [reflexivity|].
  apply list_elem_of_singleton. reflexivity.
Defined.

Lemma blank_table_passes_through_witness :
  process_file blank_env "p" "v" "in.csv" [] empty_world =
  (FileResponse
     ("output/" +:+ output_filename_at blank_env "in.csv"
        (record_write (input_filepath "in.csv") (Uploaded []) empty_world))
     (output_filename_at blank_env "in.csv"
        (record_write (input_filepath "in.csv") (Uploaded []) empty_world)),
   record_write
     ("output/" +:+ output_filename_at blank_env "in.csv"
        (record_write (input_filepath "in.csv") (Uploaded []) empty_world))
     (Spreadsheet (output_format "in.csv") (prepare blank_rows))
     (tick (record_write (input_filepath "in.csv") (Uploaded []) empty_world))).
Proof.
  apply blank_table_passes_through.
  - apply accepted_csv; [reflexivity|].
    apply list_elem_of_singleton. reflexivity.
  - repeat (apply Forall_cons; split; [vm_compute; reflexivity|]).
    apply Forall_nil_2.
Defined.

Lemma input_cells_kept_witness :
  ∃ df_out,
    fs (process_file answering_env "p" "v" "in.csv" [] empty_world).2
      !! "output/processed_4.csv"
    = Some (Spreadsheet (output_format "in.csv") df_out) ∧
    ∀ i row_in, rows three_rows !! i = Some row_in →
      ∃ row_out, rows df_out !! i = Some row_out ∧
        ∀ c, c ∈ columns three_rows →
             c ≠ "Extracted Text" → c ≠ "Extracted URL" →
             row_out !! c = row_in !! c.
Proof.
  apply (input_cells_kept answering_env "p" "v" "in.csv" [] three_rows
           empty_world "output/processed_4.csv" "processed_4.csv").
  - apply accepted_csv; [reflexivity|]. apply elem_of_cons. by left.
  - apply run_as_pair. vm_compute. reflexivity.
Defined.

Lemma output_columns_order_witness :
  ∃ df_out,
    fs (process_file answering_env "p" "v" "in.csv" [] empty_world).2
      !! "output/processed_4.csv"
    = Some (Spreadsheet (output_format "in.csv") df_out) ∧
    columns df_out
    = columns three_rows ++
      filter (λ c, c ∉ columns three_rows)
             (evaluation_metrics ++ ["Extracted Text"; "Extracted URL"]).
Proof.
  apply (output_columns_order answering_env "p" "v" "in.csv" [] three_rows
           empty_world "output/processed_4.csv" "processed_4.csv").
  - apply accepted_csv; [reflexivity|]. apply elem_of_cons. by left.
  - apply run_as_pair. vm_compute. reflexivity.
Defined.

(** ** When the request returns the spreadsheet *)


